(** * Prism overlay: player resolution, caching and the settings protocol

    A shallow embedding of the stats resolver ([examples/overlay/get_stats.py]),
    of the mutation protocol ([examples/overlay/behaviour.py]) and of the
    sidelay player classes ([examples/sidelay/stats.py]), with the properties
    the specification states about them. *)

From Stdlib Require Import ZArith QArith.
From stdpp Require Import base option list strings gmap.

#[local] Set Warnings "-clear-no-such-hyp".

Local Open Scope string_scope.
Local Open Scope list_scope.

(** ** Python dictionaries whose iteration order is observed

    [settings.known_nicks] is iterated by [set_nickname], so it is kept as an
    insertion-ordered association list: [d.get(k)], [d.pop(k, None)] and
    [d[k] = v] (in place for a present key, appended for a new one). *)
Module PyDict.
Section ops.
Context {V : Type}.

Fixpoint get (d : list (string * V)) (k : string) : option V :=
  match d with
  | [] => None
  | (k', v) :: d' => if decide (k' = k) then Some v else get d' k
  end.

Fixpoint pop (d : list (string * V)) (k : string) : list (string * V) :=
  match d with
  | [] => []
  | (k', v) :: d' => if decide (k' = k) then pop d' k else (k', v) :: pop d' k
  end.

Fixpoint set (d : list (string * V)) (k : string) (v : V) : list (string * V) :=
  match d with
  | [] => [(k, v)]
  | (k', v') :: d' =>
      if decide (k' = k) then (k, v) :: d' else (k', v') :: set d' k v
  end.

Definition keys (d : list (string * V)) : list string := d.*1.

End ops.
End PyDict.

(** ** Data model *)

(** [GamemodeData] and [PlayerData] of [hystatutils/playerdata.py]: the
    parsed record the stats provider returns.  Of a [dict[str, Any]] the
    resolver reads [displayname] and the per-gamemode integer stats. *)
Record PlayerData := mkPlayerData {
  displayname : string;
  pd_stats : option (gmap string (gmap string Z));
}.

(** [get_gamemode_stats]: [None] stands for [MissingStatsError]. *)
Definition get_gamemode_stats (playerdata : PlayerData) (gamemode : string)
    : option (gmap string Z) :=
  match pd_stats playerdata with
  | None => None
  | Some stats => stats !! gamemode
  end.

(** Modelled from the spec: the Known player record of
    [examples/overlay/player.py] (absent): "confirmed identity with uuid, username, ... stats fields (... winstreak,
    or an explicit winstreak-unknown marker), optional nickname the player is
    currently hiding behind". *)
Record KnownPlayer := mkKnownPlayer {
  kp_username : string;
  kp_uuid : string;
  kp_nick : option string;
  kp_experience : Z;
  kp_winstreak : option Z;
  kp_winstreak_accurate : bool;
}.

(** Modelled from the spec: the three-case player record (Known, Nicked,
    Pending) of [examples/overlay/player.py]. *)
Inductive Player :=
  | Known (p : KnownPlayer)
  | Nicked (nick : string)
  | Pending (username : string).

Definition is_pending (p : Player) : bool :=
  match p with Pending _ => true | _ => false end.

(** [dataclasses.replace(player, nick=...)]. *)
Definition replace_nick (p : KnownPlayer) (nick : option string) : KnownPlayer :=
  {| kp_username := kp_username p; kp_uuid := kp_uuid p; kp_nick := nick;
     kp_experience := kp_experience p; kp_winstreak := kp_winstreak p;
     kp_winstreak_accurate := kp_winstreak_accurate p |}.

(** Modelled from the spec: [create_known_player] of
    [examples/overlay/player.py] (absent): "wrap the fetched record as
    Known", under the username, uuid and nick the resolver passes; the
    winstreak is unknown when the provider's record has none. *)
Definition create_known_player
    (playerdata : PlayerData) (username uuid : string) (nick : option string)
    : KnownPlayer :=
  let bw_stats := default ∅ (get_gamemode_stats playerdata "Bedwars") in
  {| kp_username := username; kp_uuid := uuid; kp_nick := nick;
     kp_experience := default 0%Z (bw_stats !! "Experience");
     kp_winstreak := bw_stats !! "winstreak";
     kp_winstreak_accurate := bool_decide (is_Some (bw_stats !! "winstreak")) |}.

(** Modelled from the spec: [KnownPlayer.is_missing_winstreaks] (absent): the
    record is "marked with an unresolved/missing winstreak". *)
Definition is_missing_winstreaks (p : KnownPlayer) : bool :=
  bool_decide (kp_winstreak p = None).

(** Modelled from the spec: [KnownPlayer.aliases] (absent): the names a Known
    record is reachable under in the cache, its true username and, when it
    hides behind one, its nickname ("alias write-through"). *)
Definition aliases (p : KnownPlayer) : list string :=
  kp_username p :: option_list (kp_nick p).

(** Modelled from the spec: [KnownPlayer.update_winstreaks] (absent), the
    mutator of the "winstreak backfill": it fills in the estimate. *)
Definition update_winstreaks
    (estimate : Z) (winstreaks_accurate : bool) (p : KnownPlayer) : KnownPlayer :=
  {| kp_username := kp_username p; kp_uuid := kp_uuid p; kp_nick := kp_nick p;
     kp_experience := kp_experience p; kp_winstreak := Some estimate;
     kp_winstreak_accurate := winstreaks_accurate |}.

(** One entry of [settings.known_nicks]: [{"uuid": ..., "comment": ...}]. *)
Record NickValue := mkNickValue { nv_uuid : string; nv_comment : string }.

Global Instance NickValue_eq_dec : EqDecision NickValue.
Proof. solve_decision. Defined.

(** [Settings] and [SettingsDict] of [examples/overlay/settings.py], with
    the fields [tests/examples/overlay/test_settings.py] builds them from. *)
Record Settings := mkSettings {
  hypixel_api_key : string;
  antisniper_api_key : option string;
  use_antisniper_api : bool;
  known_nicks : list (string * NickValue);
  show_on_tab : bool;
}.

(** Modelled from the spec: [NickDatabase] of
    [examples/overlay/nick_database.py] (absent): the in-memory
    "default/fallback binding table seeded at startup", followed by the
    further tables the database was built from ([NickDatabase([{}])] in the
    tests builds it from a list of tables). *)
Record NickDatabase := mkNickDatabase {
  default_database : gmap string string;
  other_databases : list (gmap string string);
}.

Fixpoint first_binding (dbs : list (gmap string string)) (nick : string)
    : option string :=
  match dbs with
  | [] => None
  | d :: dbs' =>
      match d !! nick with Some u => Some u | None => first_binding dbs' nick end
  end.

(** ** The controller and its outbound calls *)

(** Every lookup the resolver can make, in the order it makes them. *)
Inductive Call :=
  | CallGetUuid (username : string)
  | CallGetDefault (nick : string)
  | CallDenick (nick : string)
  | CallNickDatabaseGet (nick : string)
  | CallGetPlayerData (uuid : string)
  | CallGetEstimatedWinstreaks (uuid : string).

Global Instance Call_eq_dec : EqDecision Call.
Proof. solve_decision. Defined.

(** Modelled from the spec: the external collaborators behind
    [OverlayController] ([examples/overlay/controller.py] is absent): the identity
    provider, the denick API, the stats provider and the winstreak
    estimator.  Each answer may depend on everything asked so far, so a
    provider may answer the same question differently the second time.
    [None] is the controller's "no data" ([MISSING_WINSTREAKS] for the
    estimator). *)
Record Providers := mkProviders {
  answer_get_uuid : list Call → string → option string;
  answer_denick : list Call → string → option string;
  answer_get_player_data : list Call → string → option PlayerData;
  answer_get_estimated_winstreaks : list Call → string → option Z * bool;
}.

Record Controller := mkController {
  settings : Settings;
  stored_settings : Settings;
  nick_database : NickDatabase;
  player_cache : gmap string Player;
  api_key : string;
  api_key_invalid : bool;
  redraw_event : bool;
  calls : list Call;
}.

Definition with_settings (f : Settings → Settings) (c : Controller) : Controller :=
  mkController (f (settings c)) (stored_settings c) (nick_database c)
    (player_cache c) (api_key c) (api_key_invalid c) (redraw_event c) (calls c).

Definition with_stored_settings (s : Settings) (c : Controller) : Controller :=
  mkController (settings c) s (nick_database c)
    (player_cache c) (api_key c) (api_key_invalid c) (redraw_event c) (calls c).

Definition with_default_database
    (f : gmap string string → gmap string string) (c : Controller) : Controller :=
  mkController (settings c) (stored_settings c)
    (mkNickDatabase (f (default_database (nick_database c)))
       (other_databases (nick_database c)))
    (player_cache c) (api_key c) (api_key_invalid c) (redraw_event c) (calls c).

Definition with_player_cache
    (f : gmap string Player → gmap string Player) (c : Controller) : Controller :=
  mkController (settings c) (stored_settings c) (nick_database c)
    (f (player_cache c)) (api_key c) (api_key_invalid c) (redraw_event c) (calls c).

Definition with_api_key (k : string) (invalid : bool) (c : Controller) : Controller :=
  mkController (settings c) (stored_settings c) (nick_database c)
    (player_cache c) k invalid (redraw_event c) (calls c).

Definition with_redraw_event (b : bool) (c : Controller) : Controller :=
  mkController (settings c) (stored_settings c) (nick_database c)
    (player_cache c) (api_key c) (api_key_invalid c) b (calls c).

Definition with_call (e : Call) (c : Controller) : Controller :=
  mkController (settings c) (stored_settings c) (nick_database c)
    (player_cache c) (api_key c) (api_key_invalid c) (redraw_event c)
    (calls c ++ [e]).

(** The state monad the controller is threaded through. *)
Definition M (A : Type) : Type := Controller → A * Controller.

Definition ret {A} (a : A) : M A := λ c, (a, c).

Definition bind {A B} (m : M A) (k : A → M B) : M B :=
  λ c, let (a, c') := m c in k a c'.

Notation "x <~ m ;; k" := (bind m (λ x, k))
  (at level 100, m at next level, right associativity).
Notation "m ;;; k" := (bind m (λ _, k))
  (at level 100, right associativity).

Definition modify (f : Controller → Controller) : M unit := λ c, (tt, f c).

Fixpoint for_each {A} (l : list A) (body : A → M unit) : M unit :=
  match l with
  | [] => ret tt
  | x :: l' => body x ;;; for_each l' body
  end.

(** The calls made between two states of the controller. *)
Definition new_calls (c c' : Controller) : list Call :=
  drop (length (calls c)) (calls c').

Definition count_calls (f : Call → bool) (tr : list Call) : nat :=
  length (filter (λ e, f e = true) tr).

(** Modelled from the spec: the player cache of
    [examples/overlay/player_cache.py] (absent): "[get(key) -> Record | none],
    [set(key, record)], [invalidate(key)], [clear_all()], [update(key,
    mutator)] (atomic read-modify-write ..., used for winstreak backfill)". *)
Module PlayerCache.

Definition get_cached_player (username : string) : M (option Player) :=
  λ c, (player_cache c !! username, c).

Definition set_cached_player (username : string) (player : Player) : M unit :=
  modify (with_player_cache (insert username player)).

Definition uncache_player (username : string) : M unit :=
  modify (with_player_cache (delete username)).

Definition clear_cache : M unit :=
  modify (with_player_cache (λ _, ∅)).

Definition update_entry (update : KnownPlayer → KnownPlayer) (r : Player) : Player :=
  match r with Known p => Known (update p) | _ => r end.

Definition update_cached_player
    (username : string) (update : KnownPlayer → KnownPlayer) : M unit :=
  modify (with_player_cache (alter (update_entry update) username)).

End PlayerCache.
Import PlayerCache.

(** Modelled from the spec: [controller.store_settings()]
    ([examples/overlay/controller.py] is absent): the settings are written
    to the "persistent binding store". *)
Definition store_settings : M unit :=
  λ c, (tt, with_stored_settings (settings c) c).

(** ** [examples/overlay/get_stats.py] *)
Section resolver.
Variable P : Providers.

(** Modelled from the spec: [controller.get_uuid], [controller.denick],
    [controller.get_player_data] and [controller.get_estimated_winstreaks]
    ([examples/overlay/controller.py] is absent): one question to an
    external collaborator, whose failures are "treated as not-found" and "no
    data". *)
Definition get_uuid (username : string) : M (option string) :=
  λ c, (answer_get_uuid P (calls c) username, with_call (CallGetUuid username) c).

Definition controller_denick (nick : string) : M (option string) :=
  λ c, (answer_denick P (calls c) nick, with_call (CallDenick nick) c).

Definition get_player_data (uuid : string) : M (option PlayerData) :=
  λ c, (answer_get_player_data P (calls c) uuid,
        with_call (CallGetPlayerData uuid) c).

Definition get_estimated_winstreaks (uuid : string) : M (option Z * bool) :=
  λ c, (answer_get_estimated_winstreaks P (calls c) uuid,
        with_call (CallGetEstimatedWinstreaks uuid) c).

(** Modelled from the spec: [NickDatabase.get_default] and
    [NickDatabase.get] (absent): the first reads the default table only, the
    second every table, the default one first. *)
Definition nick_database_get_default (nick : string) : M (option string) :=
  λ c, (default_database (nick_database c) !! nick,
        with_call (CallGetDefault nick) c).

Definition nick_database_get (nick : string) : M (option string) :=
  λ c, (first_binding
          (default_database (nick_database c) :: other_databases (nick_database c))
          nick,
        with_call (CallNickDatabaseGet nick) c).

Definition denick (nick : string) : M (option string) :=
  uuid <~ nick_database_get_default nick ;;
  match uuid with
  | Some uuid => ret (Some uuid)
  | None =>
      uuid <~ controller_denick nick ;;
      match uuid with
      | Some uuid => ret (Some uuid)
      | None =>
          uuid <~ nick_database_get nick ;;
          match uuid with
          | Some uuid => ret (Some uuid)
          | None => ret None
          end
      end
  end.

Definition fetch_bedwars_stats (username : string) : M Player :=
  uuid <~ get_uuid username ;;
  found <~ match uuid with
           | None =>
               denick_result <~ denick username ;;
               match denick_result with
               | Some d => ret (Some d, Some username, true)
               | None => ret (None, None, false)
               end
           | Some _ => ret (uuid, None, false)
           end ;;
  let '(uuid, nick, denicked) := found in
  match uuid with
  | None => ret (Nicked username)
  | Some uuid =>
      playerdata <~ get_player_data uuid ;;
      retried <~ (if negb denicked && bool_decide (playerdata = None) then
                    denick_result <~ denick username ;;
                    match denick_result with
                    | Some d =>
                        playerdata <~ get_player_data d ;;
                        ret (d, Some username, playerdata)
                    | None => ret (uuid, nick, playerdata)
                    end
                  else ret (uuid, nick, playerdata)) ;;
      let '(uuid, nick, playerdata) := retried in
      match playerdata with
      | None => ret (Nicked username)
      | Some playerdata =>
          let username :=
            match nick with
            | Some _ => displayname playerdata
            | None => username
            end in
          ret (Known (create_known_player playerdata username uuid nick))
      end
  end.

Definition fetch_and_cache (username : string) : M Player :=
  player <~ fetch_bedwars_stats username ;;
  match player with
  | Known p =>
      match kp_nick p with
      | Some _ => set_cached_player (kp_username p) (Known (replace_nick p None))
      | None => ret tt
      end
  | _ => ret tt
  end ;;;
  set_cached_player username player ;;;
  ret player.

Definition get_bedwars_stats (username : string) : M Player :=
  cached_stats <~ get_cached_player username ;;
  match cached_stats with
  | Some cached =>
      if is_pending cached then fetch_and_cache username else ret cached
  | None => fetch_and_cache username
  end.

(** ** [examples/overlay/behaviour.py] *)

(** The [for ... in known_nicks.items(): ... break] search of [set_nickname]:
    the first entry bound to the uuid. *)
Fixpoint find_nick_of_uuid (items : list (string * NickValue)) (uuid : string)
    : option (string * NickValue) :=
  match items with
  | [] => None
  | (old_nick, nick_value) :: items' =>
      if decide (uuid = nv_uuid nick_value) then Some (old_nick, nick_value)
      else find_nick_of_uuid items' uuid
  end.

Definition set_known_nicks (f : list (string * NickValue) → list (string * NickValue))
    : M unit :=
  modify (with_settings (λ s,
    mkSettings (hypixel_api_key s) (antisniper_api_key s) (use_antisniper_api s)
      (f (known_nicks s)) (show_on_tab s))).

Definition when_some {A} (o : option A) (body : A → M unit) : M unit :=
  match o with Some a => body a | None => ret tt end.

Definition set_nickname (username : option string) (nick : string) : M unit :=
  found <~ match username with
           | Some username =>
               uuid <~ get_uuid username ;;
               match uuid with
               | None => ret (None, Some nick)
               | Some _ => ret (uuid, None)
               end
           | None => ret (None, Some nick)
           end ;;
  let '(uuid, old_nick) := found in
  (* with controller.settings.mutex *)
  searched <~ (λ c,
    (match uuid, username with
     | Some uuid, Some username =>
         match find_nick_of_uuid (known_nicks (settings c)) uuid with
         | Some (old_nick, nick_value) => (Some old_nick, Some nick_value)
         | None => (None, Some (mkNickValue uuid username))
         end
     | _, _ => (old_nick, None)
     end, c)) ;;
  let '(old_nick, new_nick_value) := searched in
  when_some old_nick (λ old_nick, set_known_nicks (λ d, PyDict.pop d old_nick)) ;;;
  when_some new_nick_value (λ v, set_known_nicks (λ d, PyDict.set d nick v)) ;;;
  store_settings ;;;
  (* with controller.nick_database.mutex *)
  when_some old_nick (λ old_nick, modify (with_default_database (delete old_nick))) ;;;
  when_some uuid (λ uuid, modify (with_default_database (insert nick uuid))) ;;;
  when_some old_nick uncache_player ;;;
  uncache_player nick ;;;
  modify (with_redraw_event true).

Definition set_hypixel_api_key (new_key : string) : M unit :=
  modify (with_api_key new_key false) ;;;
  modify (with_settings (λ s,
    mkSettings new_key (antisniper_api_key s) (use_antisniper_api s)
      (known_nicks s) (show_on_tab s))) ;;;
  store_settings ;;;
  clear_cache.

Definition get_stats_and_winstreak
    (username : string) (completed_queue : list string) : M (list string) :=
  player <~ get_bedwars_stats username ;;
  let completed_queue := completed_queue ++ [username] in
  match player with
  | Known player =>
      if is_missing_winstreaks player then
        estimate <~ get_estimated_winstreaks (kp_uuid player) ;;
        let '(estimated_winstreaks, winstreaks_accurate) := estimate in
        match estimated_winstreaks with
        | None => ret completed_queue
        | Some estimated_winstreaks =>
            for_each (aliases player) (λ alias,
              update_cached_player alias
                (update_winstreaks estimated_winstreaks winstreaks_accurate)) ;;;
            ret (completed_queue ++ [username])
        end
      else ret completed_queue
  | _ => ret completed_queue
  end.

Definition set_of_keys (d : list (string * NickValue)) : gset string :=
  list_to_set (PyDict.keys d).

Definition for_each_in (X : gset string) (body : string → M unit) : M unit :=
  for_each (elements X) body.

(** The local definitions of [update_settings]: the comparison
    [uuid_changed], the three sets of nicknames and the condition under
    which the whole cache is dropped. *)
Definition uuid_changed (new_known_nicks old_known_nicks : list (string * NickValue))
    (nickname : string) : Prop :=
  PyDict.get new_known_nicks nickname ≠ PyDict.get old_known_nicks nickname.

Definition added_nicknames (new_known_nicks old_known_nicks : list (string * NickValue))
    : gset string :=
  set_of_keys new_known_nicks ∖ set_of_keys old_known_nicks.

Definition removed_nicknames (new_known_nicks old_known_nicks : list (string * NickValue))
    : gset string :=
  set_of_keys old_known_nicks ∖ set_of_keys new_known_nicks.

Definition updated_nicknames (new_known_nicks old_known_nicks : list (string * NickValue))
    : gset string :=
  filter (uuid_changed new_known_nicks old_known_nicks)
    (set_of_keys new_known_nicks ∩ set_of_keys old_known_nicks).

Definition api_keys_changed (new_settings old_settings : Settings) : bool :=
  let hypixel_api_key_changed :=
    bool_decide (hypixel_api_key new_settings ≠ hypixel_api_key old_settings) in
  let antisniper_api_key_changed :=
    bool_decide (antisniper_api_key new_settings ≠ antisniper_api_key old_settings) in
  let use_antisniper_api_changed :=
    bool_decide (use_antisniper_api new_settings ≠ use_antisniper_api old_settings) in
  let potential_antisniper_updates :=
    (antisniper_api_key_changed && use_antisniper_api new_settings)
    || (use_antisniper_api_changed
        && bool_decide (antisniper_api_key new_settings ≠ None)) in
  hypixel_api_key_changed || potential_antisniper_updates.

Definition update_settings (new_settings : Settings) : M unit :=
  λ c,
  let new_known_nicks := known_nicks new_settings in
  let old_known_nicks := known_nicks (settings c) in
  let added_nicknames := added_nicknames new_known_nicks old_known_nicks in
  let removed_nicknames := removed_nicknames new_known_nicks old_known_nicks in
  let updated_nicknames := updated_nicknames new_known_nicks old_known_nicks in
  ((if api_keys_changed new_settings (settings c) then
      clear_cache
    else
      for_each_in (added_nicknames ∪ removed_nicknames) uncache_player ;;;
      for_each_in updated_nicknames uncache_player) ;;;
   (* with controller.nick_database.mutex *)
   for_each_in removed_nicknames (λ nickname,
     modify (with_default_database (delete nickname))) ;;;
   for_each_in (added_nicknames ∪ updated_nicknames) (λ nickname,
     when_some (PyDict.get new_known_nicks nickname) (λ v,
       modify (with_default_database (insert nickname (nv_uuid v))))) ;;;
   modify (with_redraw_event true) ;;;
   modify (with_settings (λ _, new_settings)) ;;;
   store_settings) c.

End resolver.

(** ** [examples/sidelay/stats.py] *)
Module Sidelay.

(** A Python [float]: a finite value or one of the special ones. *)
Inductive PyFloat :=
  | FFinite (q : Q)
  | FPosInf
  | FNegInf
  | FNaN.

Inductive PyValue :=
  | VInt (z : Z)
  | VFloat (f : PyFloat)
  | VStr (s : string).

Definition float_lt (a b : PyFloat) : bool :=
  match a, b with
  | FNaN, _ | _, FNaN => false
  | FFinite x, FFinite y => negb (Qle_bool y x)
  | FFinite _, FPosInf => true
  | FNegInf, FFinite _ => true
  | FNegInf, FPosInf => true
  | _, _ => false
  end.

(** [a < b] on numbers; an [int] is compared by its value. *)
Definition value_lt (a b : PyValue) : bool :=
  match a, b with
  | VInt x, VInt y => (x <? y)%Z
  | VInt x, VFloat f => float_lt (FFinite (inject_Z x)) f
  | VFloat f, VInt y => float_lt f (FFinite (inject_Z y))
  | VFloat f, VFloat g => float_lt f g
  | _, _ => false
  end.

(** [math.isfinite] on the numbers. *)
Definition is_finite (v : PyValue) : bool :=
  match v with
  | VInt _ | VFloat (FFinite _) => true
  | _ => false
  end.

Record PlayerStats := mkPlayerStats {
  fkdr : PyValue;
  stars : PyValue;
  wlr : PyValue;
  winstreak : Z;
  ps_username : string;
  ps_nick : option string;
}.

Record NickedPlayer := mkNickedPlayer { np_username : string }.

Inductive Stats :=
  | StatsOf (s : PlayerStats)
  | NickedOf (n : NickedPlayer).

Definition stats_username (s : Stats) : string :=
  match s with StatsOf p => ps_username p | NickedOf n => np_username n end.

Definition nicked (s : Stats) : bool :=
  match s with StatsOf _ => false | NickedOf _ => true end.

(** [PlayerStats.get_value]; a name outside [PropertyName] falls off the end
    of the [if] chain and yields Python's [None]. *)
Definition PlayerStats_get_value (self : PlayerStats) (name : string)
    : option PyValue :=
  if decide (name = "fkdr") then Some (fkdr self)
  else if decide (name = "stars") then Some (stars self)
  else if decide (name = "wlr") then Some (wlr self)
  else if decide (name = "winstreak") then Some (VInt (winstreak self))
  else if decide (name = "username") then
    Some (VStr (ps_username self ++
                match ps_nick self with
                | Some nick => " (" ++ nick ++ ")"
                | None => ""
                end))
  else None.

Definition NickedPlayer_get_value (self : NickedPlayer) (name : string) : PyValue :=
  VFloat FPosInf.

Definition NickedPlayer_get_string (self : NickedPlayer) (name : string) : string :=
  if decide (name = "username") then np_username self else "unknown".

(** The sort key of [rate_stats_for_non_party_members]: a two- or
    three-element tuple. *)
Definition rate_stats (party_members : gset string) (stats : Stats)
    : bool * bool * option PlayerStats :=
  let is_enemy := bool_decide (stats_username stats ∉ party_members) in
  match stats with
  | NickedOf _ => (is_enemy, nicked stats, None)
  | StatsOf p => (is_enemy, nicked stats, Some p)
  end.

Definition bool_lt (a b : bool) : bool := negb a && b.

Section ordering.
  (** The order [@dataclass(order=True)] generates on [PlayerStats]. *)
Variable stats_lt : PlayerStats → PlayerStats → bool.

(** Python's order on tuples: the first differing position decides, and a
    proper prefix comes first. *)
Definition key_lt (a b : bool * bool * option PlayerStats) : bool :=
  let '(a1, a2, a3) := a in
  let '(b1, b2, b3) := b in
  if bool_lt a1 b1 then true
  else if bool_lt b1 a1 then false
  else if bool_lt a2 b2 then true
  else if bool_lt b2 a2 then false
  else match a3, b3 with
       | None, Some _ => true
       | Some x, Some y => stats_lt x y
       | _, _ => false
       end.

End ordering.

Inductive Lookup :=
  | AskGetUuid (username : string)
  | AskGetPlayerData (api_key uuid : string).

(** The session cache [KNOWN_STATS] and the lookups made so far. *)
Record State := mkState {
  KNOWN_STATS : gmap string Stats;
  lookups : list Lookup;
}.

Section get_bedwars_stats.
  (** [NICK_DATABASE] of [examples.customize], the two lookups of
      [hystatutils] ([None] for the [MojangAPIError] and [HypixelAPIError]
      the function catches), and the two helpers of [hystatutils.calc] and
      [hystatutils.utils].  The stats lookup is a parameter of the shape the
      function calls it with, [get_player_data(api_key, uuid=uuid)];
      [hystatutils/playerdata.py] declares [get_player_data(uuid,
      key_holder)]. *)
Variable NICK_DATABASE : gmap string string.
Variable answer_get_uuid : list Lookup → string → option string.
Variable answer_get_player_data : list Lookup → string → string → option PlayerData.
Variable bedwars_level_from_exp : Z → PyValue.
Variable div : Z → Z → PyValue.

Definition try_get_uuid (username : string) (st : State) : option string * State :=
  (answer_get_uuid (lookups st) username,
   mkState (KNOWN_STATS st) (lookups st ++ [AskGetUuid username])).

Definition try_get_player_data (api_key uuid : string) (st : State)
    : option PlayerData * State :=
  (answer_get_player_data (lookups st) api_key uuid,
   mkState (KNOWN_STATS st) (lookups st ++ [AskGetPlayerData api_key uuid])).

Definition stat (bw_stats : gmap string Z) (key : string) : Z :=
  default 0%Z (bw_stats !! key).

Definition make_stats (playerdata : PlayerData) (username : string)
    (nick : option string) : Stats :=
  match get_gamemode_stats playerdata "Bedwars" with
  | None =>
      StatsOf (mkPlayerStats (VInt 0) (VInt 0) (VInt 0) 0 username None)
  | Some bw_stats =>
      StatsOf
        (mkPlayerStats
           (div (stat bw_stats "final_kills_bedwars")
                (stat bw_stats "final_deaths_bedwars"))
           (bedwars_level_from_exp (stat bw_stats "Experience"))
           (div (stat bw_stats "wins_bedwars")
                (stat bw_stats "games_played_bedwars"
                 - stat bw_stats "wins_bedwars"))
           (stat bw_stats "winstreak")
           username nick)
  end.

Definition set_cache (username : string) (nick : option string) (stats : Stats)
    (st : State) : State :=
  let known := <[username := stats]> (KNOWN_STATS st) in
  mkState (match nick with Some nick => <[nick := stats]> known | None => known end)
          (lookups st).

Definition get_bedwars_stats (username api_key : string) (st : State)
    : Stats * State :=
  match KNOWN_STATS st !! username with
  | Some cached_stats => (cached_stats, st)
  | None =>
      let (uuid, st) := try_get_uuid username st in
      let '(uuid, nick, denicked) :=
        match uuid, NICK_DATABASE !! username with
        | None, Some d => (Some d, Some username, true)
        | _, _ => (uuid, None, false)
        end in
      match uuid with
      | None =>
          let stats := NickedOf (mkNickedPlayer username) in
          (stats, set_cache username nick stats st)
      | Some uuid =>
          let (playerdata, st) := try_get_player_data api_key uuid st in
          let '(nick, playerdata, st) :=
            match negb denicked && bool_decide (playerdata = None),
                  NICK_DATABASE !! username with
            | true, Some d =>
                let (playerdata, st) := try_get_player_data api_key d st in
                (Some username, playerdata, st)
            | _, _ => (nick, playerdata, st)
            end in
          match playerdata with
          | None =>
              let stats := NickedOf (mkNickedPlayer username) in
              (stats, set_cache username nick stats st)
          | Some playerdata =>
              let username :=
                match nick with
                | Some _ => displayname playerdata
                | None => username
                end in
              let stats := make_stats playerdata username nick in
              (stats, set_cache username nick stats st)
          end
      end
  end.

End get_bedwars_stats.
End Sidelay.

(** ** Spec-side vocabulary *)

(** The sources of a de-anonymization chain.  [PersistedTable] is
    [settings.known_nicks], the table [store_settings] writes out;
    [DefaultTable] is [nick_database.default_database]; [AllTables] is the
    whole [nick_database]. *)
Inductive Source :=
  | PersistedTable
  | DefaultTable
  | DenickApi
  | AllTables.

Section chains.
Variable P : Providers.

Definition consult (src : Source) (nick : string) : M (option string) :=
  match src with
  | PersistedTable =>
      λ c, (nv_uuid <$> PyDict.get (known_nicks (settings c)) nick, c)
  | DefaultTable => nick_database_get_default nick
  | DenickApi => controller_denick P nick
  | AllTables => nick_database_get nick
  end.

(** Consult the sources in order; the first uuid wins. *)
Fixpoint first_hit (srcs : list Source) (nick : string) : M (option string) :=
  match srcs with
  | [] => ret None
  | src :: srcs' =>
      uuid <~ consult src nick ;;
      match uuid with
      | Some uuid => ret (Some uuid)
      | None => first_hit srcs' nick
      end
  end.

(** The order the specification words: persisted binding, API, default
    table. *)
Definition denick_as_specified : string → M (option string) :=
  first_hit [PersistedTable; DenickApi; DefaultTable].

(** The ways a resolution ends without stats, from state [c] to [c']. *)
Inductive resolution_fails (username : string) (c c' : Controller) : Prop :=
  | no_identity c1 :
      get_uuid P username c = (None, c1) →
      denick P username c1 = (None, c') →
      resolution_fails username c c'
  | denicked_without_stats c1 c2 uuid :
      get_uuid P username c = (None, c1) →
      denick P username c1 = (Some uuid, c2) →
      get_player_data P uuid c2 = (None, c') →
      resolution_fails username c c'
  | no_stats_no_denick c1 c2 uuid :
      get_uuid P username c = (Some uuid, c1) →
      get_player_data P uuid c1 = (None, c2) →
      denick P username c2 = (None, c') →
      resolution_fails username c c'
  | no_stats_after_retry c1 c2 c3 uuid uuid' :
      get_uuid P username c = (Some uuid, c1) →
      get_player_data P uuid c1 = (None, c2) →
      denick P username c2 = (Some uuid', c3) →
      get_player_data P uuid' c3 = (None, c') →
      resolution_fails username c c'.

End chains.

Definition is_denick_attempt (e : Call) : bool :=
  match e with CallGetDefault _ => true | _ => false end.

Definition is_stats_fetch (e : Call) : bool :=
  match e with CallGetPlayerData _ => true | _ => false end.

Definition is_enrichment (e : Call) : bool :=
  match e with CallGetEstimatedWinstreaks _ => true | _ => false end.

(** A cache entry that [get_bedwars_stats] treats as a miss. *)
Definition cache_miss (c : Controller) (username : string) : Prop :=
  ∀ r, player_cache c !! username = Some r → is_pending r = true.

(** ** Concrete controllers used by the examples *)
Module Examples.

Definition no_providers : Providers :=
  mkProviders (λ _ _, None) (λ _ _, None) (λ _ _, None) (λ _ _, (None, false)).

Definition empty_settings : Settings := mkSettings "key" None false [] true.

Definition empty_controller : Controller :=
  mkController empty_settings empty_settings (mkNickDatabase ∅ []) ∅
    "key" false false [].

Definition bedwars (winstreak : option Z) : PlayerData :=
  mkPlayerData "Steve"
    (Some {[ "Bedwars" :=
               match winstreak with
               | Some w => {[ "Experience" := 500%Z; "winstreak" := w ]}
               | None => {[ "Experience" := 500%Z ]}
               end ]}).

(** A Known record cached under the nickname it was resolved from. *)
Definition amazing_nick : list (string * NickValue) :=
  [("AmazingNick", mkNickValue "123987" "Player1")].

Definition player1 : KnownPlayer :=
  mkKnownPlayer "Player1" "123987" (Some "AmazingNick") 500 (Some 3%Z) true.

Definition nicked_controller : Controller :=
  let s := mkSettings "key" None false amazing_nick true in
  mkController s s (mkNickDatabase {[ "AmazingNick" := "123987" ]} [])
    {[ "AmazingNick" := Known player1;
       "Player1" := Known (replace_nick player1 None);
       "Bystander" := Nicked "Bystander" ]}
    "key" false false [].

(** New settings that only reword the comment of the binding. *)
Definition reworded_settings : Settings :=
  mkSettings "key" None false
    [("AmazingNick", mkNickValue "123987" "my friend")] true.

Definition rekeyed_settings : Settings :=
  mkSettings "new-key" None false amazing_nick true.

(** The identity provider knows Player1. *)
Definition mojang_knows_player1 : Providers :=
  mkProviders
    (λ _ username, if decide (username = "Player1") then Some "123987" else None)
    (λ _ _, None) (λ _ _, None) (λ _ _, (None, false)).

(** The default table binds "AmazingNick", the settings do not, and the
    denick API would name somebody else. *)
Definition default_only_controller : Controller :=
  mkController empty_settings empty_settings
    (mkNickDatabase {[ "AmazingNick" := "123987" ]} []) ∅ "key" false false [].

Definition api_denicks : Providers :=
  mkProviders (λ _ _, None)
    (λ _ nick, if decide (nick = "AmazingNick") then Some "999000" else None)
    (λ _ _, None) (λ _ _, (None, false)).

(** "AmazingNick" is also the name of an account that never played: the
    identity provider has a uuid for it, the stats provider has data for
    Player1 only. *)
Definition player1_data : PlayerData :=
  mkPlayerData "Player1"
    (Some {[ "Bedwars" := {[ "Experience" := 500%Z; "winstreak" := 3%Z ]} ]}).

Definition shadowed_nick : Providers :=
  mkProviders
    (λ _ username, if decide (username = "AmazingNick") then Some "555000" else None)
    (λ _ _, None)
    (λ _ uuid, if decide (uuid = "123987") then Some player1_data else None)
    (λ _ _, (None, false)).

(** The identity provider is unreachable, "Steve" is bound to his own uuid,
    and the stats provider returns his record. *)
Definition steve_controller : Controller :=
  mkController empty_settings empty_settings
    (mkNickDatabase {[ "Steve" := "u1" ]} []) ∅ "key" false false [].

Definition steve_stats (winstreak : option Z) (estimate : option Z) : Providers :=
  mkProviders (λ _ _, None) (λ _ _, None)
    (λ _ uuid, if decide (uuid = "u1") then Some (bedwars winstreak) else None)
    (λ _ _, (estimate, true)).

Definition sidelay_player1 : Sidelay.PlayerStats :=
  Sidelay.mkPlayerStats (Sidelay.VFloat (Sidelay.FFinite (5 # 2)))
    (Sidelay.VFloat (Sidelay.FFinite (321 # 1)))
    (Sidelay.VFloat Sidelay.FPosInf) 12 "Player1" None.

End Examples.

(** * Further code of the cited files *)

(** ** [examples/overlay/behaviour.py]: the main loop's helpers *)

(** The loop of [should_redraw]: take the completed usernames off the queue
    until it is empty; while no redraw is due, a username that is in the
    lobby makes one due.  Returns the flag and what is left of the queue. *)
Fixpoint drain_completed_stats (lobby_players : gset string)
    (completed_stats_queue : list string) (redraw : bool) : bool * list string :=
  match completed_stats_queue with
  | [] => (redraw, [])
  | username :: queue' =>
      drain_completed_stats lobby_players queue'
        (if negb redraw then
           if decide (username ∈ lobby_players) then true else redraw
         else redraw)
  end.

(** [should_redraw]; [controller.state.lobby_players] is passed in (the
    state class of [examples/overlay/state.py] is absent). *)
Definition should_redraw (lobby_players : gset string)
    (completed_stats_queue : list string) : M (bool * list string) :=
  λ c,
  let (redraw, queue') :=
    drain_completed_stats lobby_players completed_stats_queue (redraw_event c) in
  ((redraw, queue'), if redraw then with_redraw_event false c else c).

(** [PartyRole] and the events of [examples/overlay/events.py]. *)
Inductive PartyRole := leader | moderators | members.

Inductive Event :=
  | InitializeAsEvent (username : string)
  | NewNicknameEvent (nick : string)
  | LobbySwapEvent
  | LobbyJoinEvent (username : string) (player_count player_cap : Z)
  | LobbyLeaveEvent (username : string)
  | LobbyListEvent (usernames : list string)
  | PartyAttachEvent (username : string)
  | PartyDetachEvent
  | PartyJoinEvent (usernames : list string)
  | PartyLeaveEvent (usernames : list string)
  | PartyListIncomingEvent
  | PartyMembershipListEvent (usernames : list string) (role : PartyRole)
  | StartBedwarsGameEvent
  | EndBedwarsGameEvent
  | NewAPIKeyEvent (key : string)
  | WhisperCommandSetNickEvent (nick : string) (username : option string).

Section loglines.
  (** [parse_logline] and [process_event] live in modules that are absent
      ([examples/overlay/parsing.py], [examples/overlay/process_event.py]);
      they are parameters here.  [process_event] works on the controller and
      the session state it owns, [World]; [set_redraw_event] is
      [controller.redraw_event.set()] on it. *)
Variable World : Type.
Variable parse_logline : string → option Event.
Variable process_event : Event → World → bool * World.
Variable set_redraw_event : World → World.

Fixpoint fast_forward_state (loglines : list string) (w : World) : World :=
  match loglines with
  | [] => w
  | line :: loglines' =>
      match parse_logline line with
      | None => fast_forward_state loglines' w
      | Some event => fast_forward_state loglines' (process_event event w).2
      end
  end.

Fixpoint process_loglines (loglines : list string) (w : World) : World :=
  match loglines with
  | [] => w
  | line :: loglines' =>
      match parse_logline line with
      | None => process_loglines loglines' w
      | Some event =>
          let (redraw, w') := process_event event w in
          process_loglines loglines' (if redraw then set_redraw_event w' else w')
      end
  end.

End loglines.

(** ** Invariants of the tables and of the cache *)

(** The default table mirrors the uuids of [settings.known_nicks]. *)
Definition tables_in_step (c : Controller) : Prop :=
  ∀ nick,
    default_database (nick_database c) !! nick
    = nv_uuid <$> PyDict.get (known_nicks (settings c)) nick.

(** No two nicknames are bound to the same uuid. *)
Definition one_nick_per_uuid (d : list (string * NickValue)) : Prop :=
  ∀ k1 k2 v1 v2,
    PyDict.get d k1 = Some v1 → PyDict.get d k2 = Some v2 →
    nv_uuid v1 = nv_uuid v2 → k1 = k2.

(** Every resolved record in the cache is filed under its own name: a
    Nicked record under its nick, a Known record under the nick it carries
    or, when it carries none, under its username. *)
Definition filed_under_own_name (cache : gmap string Player) : Prop :=
  ∀ key r,
    cache !! key = Some r →
    match r with
    | Known p => kp_nick p = Some key ∨ (kp_nick p = None ∧ kp_username p = key)
    | Nicked nick => nick = key
    | Pending _ => True
    end.

Definition is_identity_lookup (e : Call) : bool :=
  match e with CallGetUuid _ => true | _ => false end.

Definition is_api_denick (e : Call) : bool :=
  match e with CallDenick _ => true | _ => false end.

(** The controller with another call log and everything else as it is. *)
Definition with_calls (tr : list Call) (c : Controller) : Controller :=
  mkController (settings c) (stored_settings c) (nick_database c)
    (player_cache c) (api_key c) (api_key_invalid c) (redraw_event c) tr.

(** ** [hystatutils/playerdata.py]: [get_player_data] *)
Module Hypixel.

(** A parsed JSON document, as [response.json()] returns it. *)
#[local] Unset Elimination Schemes.
Inductive Json :=
  | JNull
  | JBool (b : bool)
  | JInt (z : Z)
  | JFloat (f : Sidelay.PyFloat)
  | JString (s : string)
  | JArray (items : list Json)
  | JObject (fields : list (string * Json)).
#[local] Set Elimination Schemes.

(** Python's truth value of such a document ([not x] is its negation). *)
Definition truthy (v : Json) : bool :=
  match v with
  | JNull => false
  | JBool b => b
  | JInt z => negb (z =? 0)%Z
  | JFloat (Sidelay.FFinite q) => negb (Qeq_bool q 0)
  | JFloat _ => true
  | JString s => negb (bool_decide (s = ""))
  | JArray items => negb (bool_decide (items = []))
  | JObject fields => negb (bool_decide (fields = []))
  end.

(** What [requests.get] comes back with: a [RequestException], or a
    response with its status code and its body, [None] when the body is not
    JSON ([JSONDecodeError]). *)
Inductive Reply :=
  | RequestFailed
  | Response (status_code : Z) (json : option Json).

(** The truth value of a response is [response.ok]: the status is not a
    client or server error. *)
Definition ok (status_code : Z) : bool :=
  negb ((400 <=? status_code)%Z && (status_code <? 600)%Z).

(** The exceptions that can leave [get_player_data]: the one it raises
    itself, and the two that [response_json.get] and
    [response_json["player"]] raise. *)
Inductive Raised :=
  | HypixelAPIError
  | AttributeError
  | KeyError.

(** [get_player_data], as a function of the reply to its request; the rate
    limiter around the request ([hystatutils/ratelimiting.py], absent) only
    delays it. *)
Definition get_player_data (reply : Reply) : Json + Raised :=
  match reply with
  | RequestFailed => inr HypixelAPIError
  | Response status_code json =>
      if negb (ok status_code) then inr HypixelAPIError
      else
        match json with
        | None => inr HypixelAPIError
        | Some (JObject response_json) =>
            if negb (truthy (default (JBool false)
                               (PyDict.get response_json "success")))
            then inr HypixelAPIError
            else
              match PyDict.get response_json "player" with
              | None => inr KeyError
              | Some playerdata =>
                  if negb (truthy playerdata) then inr HypixelAPIError
                  else inl playerdata
              end
        | Some _ => inr AttributeError
        end
  end.

End Hypixel.

(** ** Concrete inputs for the further properties *)
Module Cases.

(** A log reader that knows one line, and an event handler that records
    what it saw and never asks for a redraw. *)
Definition parse_swap (line : string) : option Event :=
  if decide (line = "Sending you to mini121A!") then Some LobbySwapEvent else None.

Definition record_event (event : Event) (seen : list Event) : bool * list Event :=
  (false, seen ++ [event]).

Definition two_lines : list string :=
  ["Sending you to mini121A!"; "[CHAT] hello"].

(** Two players of whom one is in the party. *)
Definition teammate : Sidelay.Stats :=
  Sidelay.NickedOf (Sidelay.mkNickedPlayer "AmazingNick").

Definition enemy : Sidelay.Stats := Sidelay.StatsOf Examples.sidelay_player1.

Definition party : gset string := {[ "AmazingNick" ]}.

(** New settings that bind a second nickname. *)
Definition two_nicks : Settings :=
  mkSettings "key" None false
    [("AmazingNick", mkNickValue "123987" "Player1");
     ("SuperbNick", mkNickValue "555000" "Player2")] true.

(** New settings that switch the antisniper API on, with a key. *)
Definition antisniper_on : Settings :=
  mkSettings "key" (Some "antisniper-key") true Examples.amazing_nick true.

(** The providers know Player1 by name and by uuid. *)
Definition knows_player1 : Providers :=
  mkProviders
    (λ _ username, if decide (username = "Player1") then Some "123987" else None)
    (λ _ _, None)
    (λ _ uuid, if decide (uuid = "123987") then Some Examples.player1_data else None)
    (λ _ _, (None, false)).

End Cases.

(** * Properties *)

(** ** Dictionaries and the cache *)

Lemma pydict_get_pop_eq {V} (d : list (string * V)) k :
  PyDict.get (PyDict.pop d k) k = None.
Proof.
  induction d as [|[k' v] d IH]; simpl; [done|].
  destruct (decide (k' = k)) as [->|Hne]; simpl; [done|].
  by rewrite decide_False.
Qed.

Lemma pydict_get_pop_ne {V} (d : list (string * V)) k k' :
  k ≠ k' → PyDict.get (PyDict.pop d k) k' = PyDict.get d k'.
Proof.
  intros Hne. induction d as [|[k0 v] d IH]; simpl; [done|].
  destruct (decide (k0 = k)) as [->|Hk]; simpl.
  - by rewrite decide_False.
  - by rewrite IH.
Qed.

Lemma pydict_get_set_eq {V} (d : list (string * V)) k v :
  PyDict.get (PyDict.set d k v) k = Some v.
Proof.
  induction d as [|[k0 v0] d IH]; simpl.
  - by rewrite decide_True.
  - destruct (decide (k0 = k)) as [->|Hk]; simpl.
    + by rewrite decide_True.
    + by rewrite decide_False.
Qed.

Lemma pydict_get_set_ne {V} (d : list (string * V)) k k' v :
  k ≠ k' → PyDict.get (PyDict.set d k v) k' = PyDict.get d k'.
Proof.
  intros Hne. induction d as [|[k0 v0] d IH]; simpl.
  - by rewrite decide_False.
  - destruct (decide (k0 = k)) as [->|Hk]; simpl.
    + by rewrite !decide_False.
    + by rewrite IH.
Qed.

Lemma pydict_elem_of_keys {V} (d : list (string * V)) k :
  k ∈ PyDict.keys d ↔ is_Some (PyDict.get d k).
Proof.
  unfold PyDict.keys. induction d as [|[k0 v0] d IH]; simpl.
  - split; [by intros ?%elem_of_nil | by intros [? ?]].
  - rewrite elem_of_cons, IH.
    destruct (decide (k0 = k)) as [->|Hk].
    + split; [by eexists | by left].
    + split; [|by right]. intros [Heq|Hin]; [congruence|done].
Qed.

(** The first entry bound to a uuid is an entry of the dictionary, bound to
    that uuid. *)
Lemma find_nick_of_uuid_Some items uuid old_nick nick_value :
  find_nick_of_uuid items uuid = Some (old_nick, nick_value) →
  nv_uuid nick_value = uuid ∧ (old_nick, nick_value) ∈ items.
Proof.
  induction items as [|[k v] items IH]; simpl; [done|].
  destruct (decide (uuid = nv_uuid v)) as [->|Hne].
  - intros [= -> ->]. split; [done | by left].
  - intros [? ?]%IH. split; [done | by right].
Qed.

Lemma find_nick_of_uuid_None items uuid :
  find_nick_of_uuid items uuid = None →
  ∀ k v, (k, v) ∈ items → nv_uuid v ≠ uuid.
Proof.
  induction items as [|[k0 v0] items IH]; simpl; intros Hf k v Hin.
  - by apply elem_of_nil in Hin.
  - destruct (decide (uuid = nv_uuid v0)) as [->|Hne]; [done|].
    apply elem_of_cons in Hin as [[= -> ->]|Hin]; [congruence | by eapply IH].
Qed.

(** A loop whose body leaves a component of the controller alone leaves it
    alone. *)
Lemma for_each_preserves {A X} (proj : Controller → X) (l : list A)
    (body : A → M unit) c :
  (∀ x c, proj (body x c).2 = proj c) →
  proj (for_each l body c).2 = proj c.
Proof.
  intros Hbody. revert c. induction l as [|x l IH]; intros c; simpl; [done|].
  unfold bind. specialize (Hbody x c). destruct (body x c) as [[] c1].
  simpl in Hbody. by rewrite IH.
Qed.

(** Uncaching a list of keys removes exactly those keys. *)
Lemma for_each_uncache_lookup (l : list string) c k :
  player_cache (for_each l uncache_player c).2 !! k
  = if decide (k ∈ l) then None else player_cache c !! k.
Proof.
  revert c. induction l as [|x l IH]; intros c.
  - case_decide as Hin; [by apply elem_of_nil in Hin | done].
  - cbn [for_each]. unfold bind, uncache_player at 1, modify.
    rewrite IH. cbn [snd player_cache with_player_cache].
    rewrite lookup_delete. repeat case_decide; set_solver.
Qed.

(** What [update_settings] leaves in the cache is decided by its first
    step: the loops over the default table and the settings writes do not
    touch it. *)
Lemma update_settings_player_cache new_settings c :
  player_cache (update_settings new_settings c).2
  = if api_keys_changed new_settings (settings c) then ∅
    else player_cache
           (for_each_in
              (updated_nicknames (known_nicks new_settings) (known_nicks (settings c)))
              uncache_player
              (for_each_in
                 (added_nicknames (known_nicks new_settings) (known_nicks (settings c))
                  ∪ removed_nicknames (known_nicks new_settings)
                      (known_nicks (settings c)))
                 uncache_player c).2).2.
Proof.
  unfold update_settings.
  set (first_step := if api_keys_changed _ _ then _ else _).
  unfold bind at 1. destruct (first_step c) as [[] c1] eqn:Hc1.
  unfold bind at 1, for_each_in at 1.
  set (loop1 := for_each _ _).
  pose proof (for_each_preserves player_cache
    (elements (removed_nicknames (known_nicks new_settings) (known_nicks (settings c))))
    (λ nickname, modify (with_default_database (delete nickname))) c1
    (λ _ _, eq_refl)) as H1.
  fold loop1 in H1. destruct (loop1 c1) as [[] c2].
  unfold bind at 1, for_each_in at 1.
  set (loop2 := for_each _ _).
  assert (H2 : player_cache (loop2 c2).2 = player_cache c2).
  { apply (for_each_preserves player_cache). intros x c0.
    by destruct (PyDict.get _ x). }
  destruct (loop2 c2) as [[] c3]. cbn [snd] in *.
  unfold bind, modify, store_settings. cbn.
  rewrite H2, H1. replace c1 with (first_step c).2 by (by rewrite Hc1).
  subst first_step. destruct (api_keys_changed _ _); [done|].
  unfold bind. by destruct (for_each_in _ _ c) as [[] ?].
Qed.

(** ** Cached resolution and credential updates *)

(** C5.  Once a key holds a Known or Nicked record, [get_bedwars_stats]
    returns that record and leaves the controller as it found it: no call to
    the identity provider, to a denick source or to the stats provider is
    made, and the same holds for every later call, as long as the entry is
    not invalidated. *)
Theorem cached_record_needs_no_provider_call P key r c n :
  player_cache c !! key = Some r →
  is_pending r = false →
  get_bedwars_stats P key c = (r, c)
  ∧ new_calls c (get_bedwars_stats P key c).2 = []
  ∧ Nat.iter n (λ s, get_bedwars_stats P key s.2) (r, c) = (r, c).
Proof.
  intros Hcached Hready.
  assert (Hone : get_bedwars_stats P key c = (r, c)).
  { unfold get_bedwars_stats, bind, get_cached_player.
    by rewrite Hcached, Hready. }
  split_and!; [done | |].
  - rewrite Hone. unfold new_calls. apply drop_all.
  - induction n as [|n IH]; [done|]. simpl. by rewrite IH.
Qed.

Lemma cached_record_needs_no_provider_call_witness :
  let c := with_player_cache (insert "Steve" (Nicked "Steve")) Examples.empty_controller in
  get_bedwars_stats Examples.no_providers "Steve" c = (Nicked "Steve", c)
  ∧ new_calls c (get_bedwars_stats Examples.no_providers "Steve" c).2 = []
  ∧ Nat.iter 3 (λ s, get_bedwars_stats Examples.no_providers "Steve" s.2)
      (Nicked "Steve", c) = (Nicked "Steve", c).
Proof.
  intros c.
  apply (cached_record_needs_no_provider_call Examples.no_providers "Steve"
           (Nicked "Steve") c 3); [vm_compute; reflexivity | reflexivity].
Defined.

(** Invalidation ends this: after [uncache_player] the key is a miss and the
    next call runs the resolver again. *)
Lemma uncache_player_makes_miss P key c :
  get_bedwars_stats P key (uncache_player key c).2
  = fetch_and_cache P key (uncache_player key c).2.
Proof.
  unfold get_bedwars_stats, bind, get_cached_player. cbn.
  by rewrite lookup_delete_eq.
Qed.

(** The sidelay resolver answers from [KNOWN_STATS] in the same way. *)
Lemma sidelay_cached_stats_need_no_lookup
    nickdb ask_uuid ask_data level div username api_key stats st :
  Sidelay.KNOWN_STATS st !! username = Some stats →
  Sidelay.get_bedwars_stats nickdb ask_uuid ask_data level div username api_key st
  = (stats, st).
Proof. intros Hcached. unfold Sidelay.get_bedwars_stats. by rewrite Hcached. Qed.

(** C6.  After [set_hypixel_api_key], and after an [update_settings] whose
    hypixel key differs from the current one, no username has a cache entry
    left: the next [get_cached_player] returns none. *)
Theorem credential_update_clears_cache c new_key new_settings username :
  (get_cached_player username (set_hypixel_api_key new_key c).2).1 = None
  ∧ (hypixel_api_key new_settings ≠ hypixel_api_key (settings c) →
     (get_cached_player username (update_settings new_settings c).2).1 = None).
Proof.
  split.
  - cbn. apply lookup_empty.
  - intros Hchanged. unfold get_cached_player. cbn [fst].
    rewrite update_settings_player_cache.
    unfold api_keys_changed. rewrite (bool_decide_eq_true_2 _ Hchanged).
    apply lookup_empty.
Qed.

Lemma credential_update_clears_cache_witness :
  (get_cached_player "Player1"
     (set_hypixel_api_key "new-key" Examples.nicked_controller).2).1 = None
  ∧ (get_cached_player "Player1"
       (update_settings Examples.rekeyed_settings Examples.nicked_controller).2).1
    = None.
Proof.
  destruct (credential_update_clears_cache Examples.nicked_controller "new-key"
              Examples.rekeyed_settings "Player1") as [Hset Hupdate].
  split; [exact Hset | apply Hupdate; vm_compute; discriminate].
Defined.

(** ** Bulk settings update *)

(** Without a credential change, [update_settings] uncaches the nicknames
    that were added, removed, or whose entry compares unequal, and nothing
    else. *)
Lemma update_settings_uncaches new_settings c k :
  api_keys_changed new_settings (settings c) = false →
  player_cache (update_settings new_settings c).2 !! k
  = if decide (k ∈ added_nicknames (known_nicks new_settings) (known_nicks (settings c))
                   ∪ removed_nicknames (known_nicks new_settings) (known_nicks (settings c))
                   ∪ updated_nicknames (known_nicks new_settings) (known_nicks (settings c)))
    then None else player_cache c !! k.
Proof.
  intros Hkeys. rewrite update_settings_player_cache, Hkeys.
  unfold for_each_in. rewrite !for_each_uncache_lookup.
  repeat case_decide; set_solver.
Qed.

(** The whole cache is dropped exactly when the hypixel key changed, or the
    antisniper key changed while the API is to be used, or the use of the
    API was switched with a key present. *)
Lemma api_keys_changed_iff new_settings old_settings :
  api_keys_changed new_settings old_settings = true
  ↔ hypixel_api_key new_settings ≠ hypixel_api_key old_settings
    ∨ (antisniper_api_key new_settings ≠ antisniper_api_key old_settings
       ∧ use_antisniper_api new_settings = true)
    ∨ (use_antisniper_api new_settings ≠ use_antisniper_api old_settings
       ∧ antisniper_api_key new_settings ≠ None).
Proof.
  unfold api_keys_changed.
  rewrite !orb_true_iff, !andb_true_iff, !bool_decide_eq_true. tauto.
Qed.

Lemma update_settings_clears new_settings c k :
  api_keys_changed new_settings (settings c) = true →
  player_cache (update_settings new_settings c).2 !! k = None.
Proof.
  intros Hkeys. rewrite update_settings_player_cache, Hkeys. apply lookup_empty.
Qed.

(** An entry is counted as updated as soon as its comment differs, the uuid
    being the same. *)
Lemma updated_nicknames_comment_only nickname uuid comment comment' :
  comment ≠ comment' →
  nickname ∈ updated_nicknames [(nickname, mkNickValue uuid comment')]
                               [(nickname, mkNickValue uuid comment)].
Proof.
  intros Hne. unfold updated_nicknames, set_of_keys, uuid_changed.
  apply elem_of_filter. simpl. rewrite !decide_True by done.
  split; [congruence | set_solver].
Qed.

(** C8, at the failing input.  The new settings keep every nickname and
    every uuid and change no credential; only the comment of "AmazingNick"
    is reworded.  [update_settings] nevertheless drops the cache entry of
    "AmazingNick", while the entries of the other keys stay. *)
Theorem update_settings_uncaches_reworded_comment :
  let c := Examples.nicked_controller in
  let c' := (update_settings Examples.reworded_settings c).2 in
  api_keys_changed Examples.reworded_settings (settings c) = false
  ∧ PyDict.keys (known_nicks Examples.reworded_settings)
    = PyDict.keys (known_nicks (settings c))
  ∧ nv_uuid <$> PyDict.get (known_nicks Examples.reworded_settings) "AmazingNick"
    = nv_uuid <$> PyDict.get (known_nicks (settings c)) "AmazingNick"
  ∧ player_cache c !! "AmazingNick" = Some (Known Examples.player1)
  ∧ player_cache c' !! "AmazingNick" = None
  ∧ player_cache c' !! "Player1" = player_cache c !! "Player1"
  ∧ player_cache c' !! "Bystander" = player_cache c !! "Bystander".
Proof. vm_compute. repeat split. Qed.

(** ** Nickname rebinding *)

(** When a person has at most one binding, the search of [set_nickname]
    finds it. *)
Lemma find_nick_of_uuid_unique items uuid old_nick nick_value :
  (old_nick, nick_value) ∈ items →
  nv_uuid nick_value = uuid →
  (∀ k v, (k, v) ∈ items → nv_uuid v = uuid → k = old_nick) →
  ∃ v, find_nick_of_uuid items uuid = Some (old_nick, v) ∧ nv_uuid v = uuid.
Proof.
  intros Hin Huuid Hunique.
  destruct (find_nick_of_uuid items uuid) as [[k v]|] eqn:Hfind.
  - apply find_nick_of_uuid_Some in Hfind as [Hv Hk].
    rewrite (Hunique k v Hk Hv). by exists v.
  - by destruct (find_nick_of_uuid_None _ _ Hfind _ _ Hin).
Qed.

(** C7.  [set_nickname] binds [nick] to the identity of [username], whose
    prior binding in [known_nicks] is [old_nick].  Afterwards [old_nick] is
    bound neither in the settings, nor in the settings written out, nor in
    the default table; [nick] is bound to the same uuid in all three; and
    the cache holds no entry under [old_nick] or under [nick]. *)
Theorem set_nickname_moves_binding P username nick c uuid old_nick nick_value :
  answer_get_uuid P (calls c) username = Some uuid →
  find_nick_of_uuid (known_nicks (settings c)) uuid = Some (old_nick, nick_value) →
  old_nick ≠ nick →
  let c' := (set_nickname P (Some username) nick c).2 in
  PyDict.get (known_nicks (settings c')) old_nick = None
  ∧ PyDict.get (known_nicks (stored_settings c')) old_nick = None
  ∧ default_database (nick_database c') !! old_nick = None
  ∧ nv_uuid <$> PyDict.get (known_nicks (settings c')) nick = Some uuid
  ∧ nv_uuid <$> PyDict.get (known_nicks (stored_settings c')) nick = Some uuid
  ∧ default_database (nick_database c') !! nick = Some uuid
  ∧ player_cache c' !! old_nick = None
  ∧ player_cache c' !! nick = None.
Proof.
  intros Huuid Hfind Hne c'. subst c'.
  pose proof (find_nick_of_uuid_Some _ _ _ _ Hfind) as [Hvalue _].
  unfold set_nickname, bind, get_uuid. rewrite Huuid. cbn.
  rewrite Hfind. cbn.
  rewrite !pydict_get_set_ne, !pydict_get_pop_eq, !pydict_get_set_eq by done.
  cbn. rewrite Hvalue.
  rewrite lookup_insert_ne, lookup_insert_eq by done.
  rewrite (lookup_delete_ne _ nick old_nick) by done.
  by rewrite !lookup_delete_eq.
Qed.

Lemma set_nickname_moves_binding_witness :
  let c' := (set_nickname Examples.mojang_knows_player1 (Some "Player1")
               "SuperbNick" Examples.nicked_controller).2 in
  PyDict.get (known_nicks (settings c')) "AmazingNick" = None
  ∧ PyDict.get (known_nicks (stored_settings c')) "AmazingNick" = None
  ∧ default_database (nick_database c') !! "AmazingNick" = None
  ∧ nv_uuid <$> PyDict.get (known_nicks (settings c')) "SuperbNick" = Some "123987"
  ∧ nv_uuid <$> PyDict.get (known_nicks (stored_settings c')) "SuperbNick"
    = Some "123987"
  ∧ default_database (nick_database c') !! "SuperbNick" = Some "123987"
  ∧ player_cache c' !! "AmazingNick" = None
  ∧ player_cache c' !! "SuperbNick" = None.
Proof.
  apply (set_nickname_moves_binding Examples.mojang_knows_player1 "Player1"
           "SuperbNick" Examples.nicked_controller "123987" "AmazingNick"
           (mkNickValue "123987" "Player1"));
    [reflexivity | reflexivity | discriminate].
Defined.

(** ** The resolver *)

Lemma count_calls_app f tr1 tr2 :
  count_calls f (tr1 ++ tr2) = count_calls f tr1 + count_calls f tr2.
Proof. unfold count_calls. by rewrite filter_app, length_app. Qed.

Lemma new_calls_app c c' tr : calls c' = calls c ++ tr → new_calls c c' = tr.
Proof. intros Hc'. unfold new_calls. by rewrite Hc', drop_app_length. Qed.

Lemma get_uuid_inv P username c r c1 :
  get_uuid P username c = (r, c1) →
  answer_get_uuid P (calls c) username = r
  ∧ c1 = with_call (CallGetUuid username) c.
Proof. by intros [= <- <-]. Qed.

Lemma get_player_data_inv P uuid c r c1 :
  get_player_data P uuid c = (r, c1) →
  answer_get_player_data P (calls c) uuid = r
  ∧ c1 = with_call (CallGetPlayerData uuid) c.
Proof. by intros [= <- <-]. Qed.

(** [denick] is the chain default table, API, whole database. *)
Lemma denick_first_hit P nick c :
  denick P nick c = first_hit P [DefaultTable; DenickApi; AllTables] nick c.
Proof.
  unfold denick, first_hit, consult, bind, ret.
  destruct (nick_database_get_default nick c) as [[?|] c1]; [done|].
  destruct (controller_denick P nick c1) as [[?|] c2]; [done|].
  by destruct (nick_database_get nick c2) as [[?|] c3].
Qed.

(** One run of [denick] starts with one lookup in the default table and
    asks neither the stats provider nor the winstreak estimator. *)
Lemma denick_calls P nick c :
  ∃ tr, calls (denick P nick c).2 = calls c ++ CallGetDefault nick :: tr
        ∧ count_calls is_denick_attempt tr = 0
        ∧ count_calls is_stats_fetch tr = 0
        ∧ count_calls is_enrichment tr = 0.
Proof.
  unfold denick, bind, ret, nick_database_get_default, controller_denick,
    nick_database_get.
  destruct (default_database (nick_database c) !! nick); cbn.
  { by exists []. }
  destruct (answer_denick P _ nick); cbn.
  { exists [CallDenick nick]. by rewrite <- app_assoc. }
  exists [CallDenick nick; CallNickDatabaseGet nick].
  split; [|done]. repeat case_match; cbn; by rewrite <- !app_assoc.
Qed.

(** [fetch_bedwars_stats] when the identity provider has no uuid. *)
Lemma fetch_without_identity P username c c1 :
  get_uuid P username c = (None, c1) →
  fetch_bedwars_stats P username c
  = (let (found, c2) := denick P username c1 in
     match found with
     | None => (Nicked username, c2)
     | Some uuid =>
         let (playerdata, c3) := get_player_data P uuid c2 in
         (match playerdata with
          | None => Nicked username
          | Some pd =>
              Known (create_known_player pd (displayname pd) uuid (Some username))
          end, c3)
     end).
Proof.
  intros Huuid. unfold fetch_bedwars_stats, bind at 1. rewrite Huuid.
  unfold bind at 1, bind at 1.
  destruct (denick P username c1) as [[uuid|] c2]; cbn; [|done].
  unfold bind. by destruct (answer_get_player_data P (calls c2) uuid).
Qed.

(** [fetch_bedwars_stats] when the identity provider has a uuid and the
    stats provider has nothing for it. *)
Lemma fetch_without_stats P username c uuid c1 c2 :
  get_uuid P username c = (Some uuid, c1) →
  get_player_data P uuid c1 = (None, c2) →
  fetch_bedwars_stats P username c
  = (let (found, c3) := denick P username c2 in
     match found with
     | None => (Nicked username, c3)
     | Some uuid' =>
         let (playerdata, c4) := get_player_data P uuid' c3 in
         (match playerdata with
          | None => Nicked username
          | Some pd =>
              Known (create_known_player pd (displayname pd) uuid' (Some username))
          end, c4)
     end).
Proof.
  intros Huuid Hdata. unfold fetch_bedwars_stats, bind at 1. rewrite Huuid.
  unfold bind at 1, ret at 1. unfold bind at 1. rewrite Hdata.
  cbn [negb andb]. rewrite bool_decide_true by done.
  unfold bind at 1, bind at 1.
  destruct (denick P username c2) as [[uuid'|] c3]; cbn; [|done].
  unfold bind. by destruct (answer_get_player_data P (calls c3) uuid').
Qed.

(** [fetch_bedwars_stats] when both providers answer at once. *)
Lemma fetch_direct P username c uuid c1 pd c2 :
  get_uuid P username c = (Some uuid, c1) →
  get_player_data P uuid c1 = (Some pd, c2) →
  fetch_bedwars_stats P username c
  = (Known (create_known_player pd username uuid None), c2).
Proof.
  intros Huuid Hdata. unfold fetch_bedwars_stats, bind at 1. rewrite Huuid.
  unfold bind at 1, ret at 1. unfold bind at 1. by rewrite Hdata.
Qed.

(** The lookups one run of [denick] makes: it stops at the first source
    that has a uuid. *)
Lemma denick_new_calls P nick c :
  new_calls c (denick P nick c).2
  = match default_database (nick_database c) !! nick with
    | Some _ => [CallGetDefault nick]
    | None =>
        match answer_denick P (calls c ++ [CallGetDefault nick]) nick with
        | Some _ => [CallGetDefault nick; CallDenick nick]
        | None => [CallGetDefault nick; CallDenick nick; CallNickDatabaseGet nick]
        end
    end.
Proof.
  apply new_calls_app.
  unfold denick, bind, ret, nick_database_get_default, controller_denick,
    nick_database_get.
  destruct (default_database (nick_database c) !! nick) eqn:Hdefault; cbn; [done|].
  destruct (answer_denick P _ nick); cbn; [by rewrite <- app_assoc|].
  rewrite Hdefault. by destruct (first_binding _ nick); cbn; rewrite <- !app_assoc.
Qed.

(** C1, as the code has it.  When the identity provider has no uuid for a
    username, the resolver consults the default table of the nick database
    first, then the denick API, then the whole nick database, and stops at
    the first uuid; with a uuid it fetches the stats once, without one it
    answers Nicked. *)
Theorem denick_consults_default_table_then_api_then_database P username c c1 :
  get_uuid P username c = (None, c1) →
  denick P username c1
  = first_hit P [DefaultTable; DenickApi; AllTables] username c1
  ∧ new_calls c1 (denick P username c1).2
    = match default_database (nick_database c1) !! username with
      | Some _ => [CallGetDefault username]
      | None =>
          match answer_denick P (calls c1 ++ [CallGetDefault username]) username with
          | Some _ => [CallGetDefault username; CallDenick username]
          | None => [CallGetDefault username; CallDenick username;
                     CallNickDatabaseGet username]
          end
      end
  ∧ fetch_bedwars_stats P username c
    = (let (found, c2) := denick P username c1 in
       match found with
       | None => (Nicked username, c2)
       | Some uuid =>
           let (playerdata, c3) := get_player_data P uuid c2 in
           (match playerdata with
            | None => Nicked username
            | Some pd =>
                Known (create_known_player pd (displayname pd) uuid (Some username))
            end, c3)
       end).
Proof.
  intros Huuid. split_and!.
  - apply denick_first_hit.
  - apply denick_new_calls.
  - by apply fetch_without_identity.
Qed.

Lemma denick_consults_default_table_then_api_then_database_witness :
  let P := Examples.api_denicks in
  let c := Examples.default_only_controller in
  let c1 := with_call (CallGetUuid "AmazingNick") c in
  denick P "AmazingNick" c1
  = first_hit P [DefaultTable; DenickApi; AllTables] "AmazingNick" c1
  ∧ new_calls c1 (denick P "AmazingNick" c1).2 = [CallGetDefault "AmazingNick"]
  ∧ (fetch_bedwars_stats P "AmazingNick" c).1 = Nicked "AmazingNick".
Proof.
  intros P c c1.
  destruct (denick_consults_default_table_then_api_then_database
              P "AmazingNick" c c1 eq_refl) as (Hchain & Hcalls & Hfetch).
  split_and!; [exact Hchain | exact Hcalls | by rewrite Hfetch].
Defined.

(** C1, as stated, fails.  With "AmazingNick" bound in the default table
    only and known to the denick API under another uuid, the order persisted
    table, API, default table would stop at the API; [denick] stops at the
    default table and never asks the API. *)
Lemma denick_is_not_persisted_then_api_then_default :
  let c := Examples.default_only_controller in
  (denick Examples.api_denicks "AmazingNick" c).1 = Some "123987"
  ∧ new_calls c (denick Examples.api_denicks "AmazingNick" c).2
    = [CallGetDefault "AmazingNick"]
  ∧ (denick_as_specified Examples.api_denicks "AmazingNick" c).1 = Some "999000"
  ∧ (denick Examples.api_denicks "AmazingNick" c).1
    ≠ (denick_as_specified Examples.api_denicks "AmazingNick" c).1.
Proof. vm_compute. repeat split. discriminate. Qed.

(** C2.  When the identity provider has a uuid and the stats provider has
    nothing for it, the resolver runs [denick] exactly once.  If that finds
    no uuid the answer is Nicked after one stats fetch; if it finds one the
    stats are fetched a second and last time, for the new uuid, and a second
    miss gives Nicked with no further lookup. *)
Theorem stats_miss_retries_denick_once P username c uuid c1 c2 :
  get_uuid P username c = (Some uuid, c1) →
  get_player_data P uuid c1 = (None, c2) →
  let (player, c') := fetch_bedwars_stats P username c in
  count_calls is_denick_attempt (new_calls c c') = 1
  ∧ match denick P username c2 with
    | (None, c3) =>
        c' = c3
        ∧ player = Nicked username
        ∧ count_calls is_stats_fetch (new_calls c c') = 1
    | (Some uuid', c3) =>
        let (playerdata, c4) := get_player_data P uuid' c3 in
        c' = c4
        ∧ new_calls c3 c' = [CallGetPlayerData uuid']
        ∧ count_calls is_stats_fetch (new_calls c c') = 2
        ∧ player = match playerdata with
                   | None => Nicked username
                   | Some pd =>
                       Known (create_known_player pd (displayname pd) uuid'
                                (Some username))
                   end
    end.
Proof.
  intros Huuid Hdata.
  rewrite (fetch_without_stats _ _ _ _ _ _ Huuid Hdata).
  apply get_uuid_inv in Huuid as [_ ->].
  apply get_player_data_inv in Hdata as [_ ->].
  set (c2 := with_call _ (with_call _ c)).
  destruct (denick_calls P username c2) as (tr & Hcalls & Hd & Hs & _).
  destruct (denick P username c2) as [[uuid'|] c3]; cbn [snd] in Hcalls.
  - unfold get_player_data.
    set (c4 := with_call (CallGetPlayerData uuid') c3).
    assert (Hc4 : calls c4
      = calls c ++ [CallGetUuid username; CallGetPlayerData uuid]
          ++ [CallGetDefault username] ++ tr ++ [CallGetPlayerData uuid']).
    { subst c4. cbn. rewrite Hcalls. subst c2. cbn.
      by rewrite <- !app_assoc. }
    rewrite (new_calls_app _ _ _ Hc4).
    rewrite (new_calls_app c3 c4 [CallGetPlayerData uuid']) by done.
    rewrite !count_calls_app, Hd, Hs. by cbn.
  - assert (Hc3 : calls c3
      = calls c ++ [CallGetUuid username; CallGetPlayerData uuid]
          ++ [CallGetDefault username] ++ tr).
    { rewrite Hcalls. subst c2. cbn. by rewrite <- !app_assoc. }
    rewrite (new_calls_app _ _ _ Hc3).
    rewrite !count_calls_app, Hd, Hs. by cbn.
Qed.

Lemma stats_miss_retries_denick_once_witness :
  let c := Examples.nicked_controller in
  let c2 := with_call (CallGetPlayerData "555000")
              (with_call (CallGetUuid "AmazingNick") c) in
  let (player, c') := fetch_bedwars_stats Examples.shadowed_nick "AmazingNick" c in
  count_calls is_denick_attempt (new_calls c c') = 1
  ∧ match denick Examples.shadowed_nick "AmazingNick" c2 with
    | (None, c3) =>
        c' = c3
        ∧ player = Nicked "AmazingNick"
        ∧ count_calls is_stats_fetch (new_calls c c') = 1
    | (Some uuid', c3) =>
        let (playerdata, c4) := get_player_data Examples.shadowed_nick uuid' c3 in
        c' = c4
        ∧ new_calls c3 c' = [CallGetPlayerData uuid']
        ∧ count_calls is_stats_fetch (new_calls c c') = 2
        ∧ player = match playerdata with
                   | None => Nicked "AmazingNick"
                   | Some pd =>
                       Known (create_known_player pd (displayname pd) uuid'
                                (Some "AmazingNick"))
                   end
    end.
Proof.
  intros c c2.
  apply (stats_miss_retries_denick_once Examples.shadowed_nick "AmazingNick" c
           "555000" (with_call (CallGetUuid "AmazingNick") c) c2);
    reflexivity.
Defined.

(** The resolver answers Known or Nicked, never Pending. *)
Lemma fetch_bedwars_stats_not_pending P username c :
  is_pending (fetch_bedwars_stats P username c).1 = false.
Proof.
  destruct (get_uuid P username c) as [[uuid|] c1] eqn:Huuid.
  - destruct (get_player_data P uuid c1) as [[pd|] c2] eqn:Hdata.
    + by rewrite (fetch_direct _ _ _ _ _ _ _ Huuid Hdata).
    + rewrite (fetch_without_stats _ _ _ _ _ _ Huuid Hdata).
      destruct (denick P username c2) as [[uuid'|] c3]; [|done].
      by destruct (get_player_data P uuid' c3) as [[pd|] c4].
  - rewrite (fetch_without_identity _ _ _ _ Huuid).
    destruct (denick P username c1) as [[uuid'|] c2]; [|done].
    by destruct (get_player_data P uuid' c2) as [[pd|] c3].
Qed.

(** A miss runs the resolver and caches its answer under the queried key. *)
Lemma get_bedwars_stats_miss P username c :
  cache_miss c username →
  get_bedwars_stats P username c = fetch_and_cache P username c.
Proof.
  intros Hmiss. unfold get_bedwars_stats, bind, get_cached_player.
  destruct (player_cache c !! username) as [r|] eqn:Hr; [|done].
  by rewrite (Hmiss r Hr).
Qed.

(** C3.  When the identity lookup and every denick source fail, or the
    stats stay unavailable (after the one retry where there is one), the
    resolver returns the Nicked placeholder for the raw username; on a cache
    miss [get_bedwars_stats] returns that placeholder too and caches it under
    the username.  Both are ordinary results: the functions have no other
    outcome. *)
Theorem resolution_failure_is_nicked P username c c' :
  resolution_fails P username c c' →
  fetch_bedwars_stats P username c = (Nicked username, c')
  ∧ (cache_miss c username →
     get_bedwars_stats P username c
     = (Nicked username, with_player_cache (insert username (Nicked username)) c')).
Proof.
  intros Hfails.
  assert (Hfetch : fetch_bedwars_stats P username c = (Nicked username, c')).
  { destruct Hfails as [c1 Hu Hd | c1 c2 uuid Hu Hd Hp | c1 c2 uuid Hu Hp Hd
                       | c1 c2 c3 uuid uuid' Hu Hp Hd Hp'].
    - by rewrite (fetch_without_identity _ _ _ _ Hu), Hd.
    - by rewrite (fetch_without_identity _ _ _ _ Hu), Hd, Hp.
    - by rewrite (fetch_without_stats _ _ _ _ _ _ Hu Hp), Hd.
    - by rewrite (fetch_without_stats _ _ _ _ _ _ Hu Hp), Hd, Hp'. }
  split; [done|]. intros Hmiss.
  rewrite (get_bedwars_stats_miss _ _ _ Hmiss).
  unfold fetch_and_cache, bind. by rewrite Hfetch.
Qed.

Lemma resolution_failure_is_nicked_witness :
  let c := Examples.empty_controller in
  let c' := with_call (CallNickDatabaseGet "Steve")
              (with_call (CallDenick "Steve")
                 (with_call (CallGetDefault "Steve")
                    (with_call (CallGetUuid "Steve") c))) in
  fetch_bedwars_stats Examples.no_providers "Steve" c = (Nicked "Steve", c')
  ∧ get_bedwars_stats Examples.no_providers "Steve" c
    = (Nicked "Steve", with_player_cache (insert "Steve" (Nicked "Steve")) c').
Proof.
  intros c c'.
  destruct (resolution_failure_is_nicked Examples.no_providers "Steve" c c')
    as [Hfetch Hget].
  - by apply (no_identity _ _ _ _ (with_call (CallGetUuid "Steve") c)).
  - split; [exact Hfetch | apply Hget]. intros r Hr. by vm_compute in Hr.
Defined.

(** A Known answer that carries a nick was built from the record of the
    last stats fetch, under the display name of that record. *)
Lemma fetch_denicked_known P username c p c' :
  fetch_bedwars_stats P username c = (Known p, c') →
  is_Some (kp_nick p) →
  ∃ pd, p = create_known_player pd (displayname pd) (kp_uuid p) (Some username)
        ∧ answer_get_player_data P (removelast (calls c')) (kp_uuid p) = Some pd
        ∧ last (calls c') = Some (CallGetPlayerData (kp_uuid p)).
Proof.
  assert (Hlast : ∀ uuid c0 pd c1,
    get_player_data P uuid c0 = (Some pd, c1) →
    answer_get_player_data P (removelast (calls c1)) uuid = Some pd
    ∧ last (calls c1) = Some (CallGetPlayerData uuid)).
  { intros uuid c0 pd c1 [Hanswer ->]%get_player_data_inv. cbn.
    by rewrite removelast_last, last_snoc. }
  intros Hfetch Hnick.
  destruct (get_uuid P username c) as [[uuid|] c1] eqn:Huuid.
  - destruct (get_player_data P uuid c1) as [[pd|] c2] eqn:Hdata.
    + rewrite (fetch_direct _ _ _ _ _ _ _ Huuid Hdata) in Hfetch.
      injection Hfetch as <- <-. by destruct Hnick.
    + rewrite (fetch_without_stats _ _ _ _ _ _ Huuid Hdata) in Hfetch.
      destruct (denick P username c2) as [[uuid'|] c3]; [|done].
      destruct (get_player_data P uuid' c3) as [[pd|] c4] eqn:Hdata'; [|done].
      injection Hfetch as <- <-. exists pd. split; [done|].
      by apply (Hlast _ c3).
  - rewrite (fetch_without_identity _ _ _ _ Huuid) in Hfetch.
    destruct (denick P username c1) as [[uuid'|] c2]; [|done].
    destruct (get_player_data P uuid' c2) as [[pd|] c3] eqn:Hdata'; [|done].
    injection Hfetch as <- <-. exists pd. split; [done|].
    by apply (Hlast _ c2).
Qed.

(** What [fetch_and_cache] writes. *)
Lemma fetch_and_cache_eq P username c :
  fetch_and_cache P username c
  = (let (player, cf) := fetch_bedwars_stats P username c in
     (player,
      with_player_cache (insert username player)
        match player with
        | Known p =>
            match kp_nick p with
            | Some _ =>
                with_player_cache
                  (insert (kp_username p) (Known (replace_nick p None))) cf
            | None => cf
            end
        | _ => cf
        end)).
Proof.
  unfold fetch_and_cache, bind.
  destruct (fetch_bedwars_stats P username c) as [[p| |] cf]; [|done..].
  by destruct (kp_nick p).
Qed.

(** C4, as the code has it.  When a miss is resolved through
    de-anonymization, the Known record carries the queried name as its nick
    and the display name of the last stats fetch as its username; the cache
    then holds the record under the queried nickname and, when the display
    name is another string, the record with its nick cleared under the
    display name. *)
Theorem denicked_record_cached_under_true_username P username c p c' :
  cache_miss c username →
  get_bedwars_stats P username c = (Known p, c') →
  is_Some (kp_nick p) →
  kp_nick p = Some username
  ∧ (∃ pd, answer_get_player_data P (removelast (calls c')) (kp_uuid p) = Some pd
           ∧ last (calls c') = Some (CallGetPlayerData (kp_uuid p))
           ∧ kp_username p = displayname pd)
  ∧ player_cache c' !! username = Some (Known p)
  ∧ (kp_username p ≠ username →
     player_cache c' !! kp_username p = Some (Known (replace_nick p None))).
Proof.
  intros Hmiss Hget Hnick.
  rewrite (get_bedwars_stats_miss _ _ _ Hmiss) in Hget.
  rewrite fetch_and_cache_eq in Hget.
  destruct (fetch_bedwars_stats P username c) as [r cf] eqn:Hfetch.
  injection Hget as -> <-.
  destruct (fetch_denicked_known _ _ _ _ _ Hfetch Hnick) as (pd & Hp & Hpd & Hlast).
  assert (Hnick' : kp_nick p = Some username) by (by rewrite Hp).
  rewrite Hnick'. cbn.
  split_and!.
  - done.
  - exists pd. split_and!; [done..|]. by rewrite Hp.
  - apply lookup_insert_eq.
  - intros Hne. rewrite lookup_insert_ne by done. apply lookup_insert_eq.
Qed.

Lemma denicked_record_cached_under_true_username_witness :
  let c := Examples.nicked_controller in
  let result := get_bedwars_stats Examples.shadowed_nick "AmazingNick"
                  (with_player_cache (λ _, ∅) c) in
  let p := create_known_player Examples.player1_data "Player1" "123987"
             (Some "AmazingNick") in
  kp_nick p = Some "AmazingNick"
  ∧ (∃ pd, answer_get_player_data Examples.shadowed_nick
             (removelast (calls result.2)) (kp_uuid p) = Some pd
           ∧ last (calls result.2) = Some (CallGetPlayerData (kp_uuid p))
           ∧ kp_username p = displayname pd)
  ∧ player_cache result.2 !! "AmazingNick" = Some (Known p)
  ∧ (kp_username p ≠ "AmazingNick" →
     player_cache result.2 !! kp_username p = Some (Known (replace_nick p None))).
Proof.
  intros c result p.
  apply (denicked_record_cached_under_true_username Examples.shadowed_nick
           "AmazingNick" (with_player_cache (λ _, ∅) c) p result.2).
  - intros r Hr. by vm_compute in Hr.
  - vm_compute. reflexivity.
  - by eexists.
Defined.

(** C4, as stated, fails.  "Steve" is resolved through the default table to
    an account whose display name is "Steve" as well: the entry under the
    true username is then the record as returned, nick included, not the
    record with its nick cleared. *)
Lemma denicked_record_keeps_nick_when_names_coincide :
  let P := Examples.steve_stats (Some 3%Z) None in
  let result := get_bedwars_stats P "Steve" Examples.steve_controller in
  ∃ p, result.1 = Known p
       ∧ kp_nick p = Some "Steve"
       ∧ kp_username p = "Steve"
       ∧ player_cache result.2 !! kp_username p = Some (Known p)
       ∧ player_cache result.2 !! kp_username p
         ≠ Some (Known (replace_nick p None)).
Proof.
  eexists. split; [vm_compute; reflexivity|].
  vm_compute. repeat split. discriminate.
Qed.

(** ** The worker *)

(** Closes a goal [calls c' = calls c ++ tr ∧ count_calls f tr = 0] once
    the calls of the inner [denick] are known. *)
Ltac close_calls Hcalls Hcount :=
  split;
  [ cbn; rewrite Hcalls; cbn; by rewrite <- !app_assoc
  | by rewrite !count_calls_app, Hcount ].

(** The resolver never asks the winstreak estimator. *)
Lemma fetch_bedwars_stats_calls P username c :
  ∃ tr, calls (fetch_bedwars_stats P username c).2 = calls c ++ tr
        ∧ count_calls is_enrichment tr = 0.
Proof.
  destruct (get_uuid P username c) as [[uuid|] c1] eqn:Huuid.
  - destruct (get_player_data P uuid c1) as [[pd|] c2] eqn:Hdata.
    + rewrite (fetch_direct _ _ _ _ _ _ _ Huuid Hdata).
      apply get_uuid_inv in Huuid as [_ ->].
      apply get_player_data_inv in Hdata as [_ ->].
      exists [CallGetUuid username; CallGetPlayerData uuid]. cbn.
      by rewrite <- app_assoc.
    + rewrite (fetch_without_stats _ _ _ _ _ _ Huuid Hdata).
      apply get_uuid_inv in Huuid as [_ ->].
      apply get_player_data_inv in Hdata as [_ ->].
      destruct (denick_calls P username
                  (with_call (CallGetPlayerData uuid)
                     (with_call (CallGetUuid username) c)))
        as (tr & Hcalls & _ & _ & He).
      destruct (denick P username _) as [[uuid'|] c3]; cbn [snd] in Hcalls.
      * exists ([CallGetUuid username; CallGetPlayerData uuid]
                ++ [CallGetDefault username] ++ tr ++ [CallGetPlayerData uuid']).
        close_calls Hcalls He.
      * exists ([CallGetUuid username; CallGetPlayerData uuid]
                ++ [CallGetDefault username] ++ tr).
        close_calls Hcalls He.
  - rewrite (fetch_without_identity _ _ _ _ Huuid).
    apply get_uuid_inv in Huuid as [_ ->].
    destruct (denick_calls P username (with_call (CallGetUuid username) c))
      as (tr & Hcalls & _ & _ & He).
    destruct (denick P username _) as [[uuid'|] c2]; cbn [snd] in Hcalls.
    + exists ([CallGetUuid username] ++ [CallGetDefault username] ++ tr
              ++ [CallGetPlayerData uuid']).
      close_calls Hcalls He.
    + exists ([CallGetUuid username] ++ [CallGetDefault username] ++ tr).
      close_calls Hcalls He.
Qed.

Lemma get_bedwars_stats_calls P username c :
  ∃ tr, calls (get_bedwars_stats P username c).2 = calls c ++ tr
        ∧ count_calls is_enrichment tr = 0.
Proof.
  assert (Hmiss : ∃ tr, calls (fetch_and_cache P username c).2 = calls c ++ tr
                        ∧ count_calls is_enrichment tr = 0).
  { rewrite fetch_and_cache_eq.
    destruct (fetch_bedwars_stats_calls P username c) as (tr & Hcalls & He).
    exists tr. split; [|done]. rewrite <- Hcalls.
    destruct (fetch_bedwars_stats P username c) as [[p| |] cf]; [|done..].
    by destruct (kp_nick p). }
  unfold get_bedwars_stats, bind, get_cached_player.
  destruct (player_cache c !! username) as [r|]; [|done].
  destruct (is_pending r); [done|]. exists []. by rewrite app_nil_r.
Qed.

(** Updating the entries of a list of keys with an idempotent mutator
    updates exactly the entries under those keys. *)
Lemma for_each_update_lookup (update : KnownPlayer → KnownPlayer)
    (l : list string) c k :
  (∀ p, update (update p) = update p) →
  player_cache (for_each l (λ alias, update_cached_player alias update) c).2 !! k
  = if decide (k ∈ l) then update_entry update <$> player_cache c !! k
    else player_cache c !! k.
Proof.
  intros Hidem. revert c. induction l as [|x l IH]; intros c.
  - case_decide as Hin; [by apply elem_of_nil in Hin | done].
  - cbn [for_each]. unfold bind, update_cached_player at 1, modify.
    rewrite IH. cbn [snd player_cache with_player_cache].
    destruct (decide (x = k)) as [->|Hne].
    + rewrite lookup_alter_eq, (decide_True (P := k ∈ k :: l)) by (by left).
      case_decide; [|done].
      destruct (player_cache c !! k) as [[p| |]|]; cbn; by rewrite ?Hidem.
    + rewrite lookup_alter_ne by done.
      repeat case_decide; set_solver.
Qed.

Lemma update_winstreaks_idempotent estimate accurate p :
  update_winstreaks estimate accurate (update_winstreaks estimate accurate p)
  = update_winstreaks estimate accurate p.
Proof. done. Qed.

(** C9.  A worker job resolves the username and then, only when the record
    is Known and misses its winstreaks, asks the estimator exactly once.
    When the estimator has nothing, the cache is left as the resolution left
    it; when it has an estimate, the Known record cached under each alias of
    the player is updated with it and no other entry changes.  The job
    always ends with the username on the completion queue. *)
Theorem worker_estimates_missing_winstreaks_once P username queue c :
  let (player, c1) := get_bedwars_stats P username c in
  let (queue', c') := get_stats_and_winstreak P username queue c in
  match player with
  | Known p =>
      if is_missing_winstreaks p then
        count_calls is_enrichment (new_calls c c') = 1
        ∧ match answer_get_estimated_winstreaks P (calls c1) (kp_uuid p) with
          | (None, _) =>
              player_cache c' = player_cache c1 ∧ queue' = queue ++ [username]
          | (Some estimate, accurate) =>
              (∀ alias r,
                 alias ∈ aliases p →
                 player_cache c1 !! alias = Some (Known r) →
                 player_cache c' !! alias
                 = Some (Known (update_winstreaks estimate accurate r)))
              ∧ (∀ key, key ∉ aliases p →
                        player_cache c' !! key = player_cache c1 !! key)
              ∧ queue' = queue ++ [username; username]
          end
      else
        count_calls is_enrichment (new_calls c c') = 0
        ∧ player_cache c' = player_cache c1 ∧ queue' = queue ++ [username]
  | _ =>
      count_calls is_enrichment (new_calls c c') = 0
      ∧ player_cache c' = player_cache c1 ∧ queue' = queue ++ [username]
  end.
Proof.
  unfold get_stats_and_winstreak, bind at 1.
  destruct (get_bedwars_stats_calls P username c) as (tr & Hcalls & He).
  destruct (get_bedwars_stats P username c) as [player c1]. cbn [snd] in Hcalls.
  assert (Hquiet : count_calls is_enrichment (new_calls c c1) = 0).
  { by rewrite (new_calls_app _ _ _ Hcalls). }
  destruct player as [p| |]; [|done..].
  destruct (is_missing_winstreaks p); [|done].
  unfold bind at 1, get_estimated_winstreaks.
  set (c2 := with_call (CallGetEstimatedWinstreaks (kp_uuid p)) c1).
  assert (Hc2 : calls c2 = calls c ++ tr ++ [CallGetEstimatedWinstreaks (kp_uuid p)]).
  { subst c2. cbn. by rewrite Hcalls, <- app_assoc. }
  destruct (answer_get_estimated_winstreaks P (calls c1) (kp_uuid p))
    as [[estimate|] accurate].
  - unfold bind.
    set (update := update_winstreaks estimate accurate).
    set (loop := for_each (aliases p) (λ alias, update_cached_player alias update)).
    pose proof (for_each_preserves calls (aliases p)
      (λ alias, update_cached_player alias update) c2 (λ _ _, eq_refl)) as Hloop.
    pose proof (λ k, for_each_update_lookup update (aliases p) c2 k
      (update_winstreaks_idempotent estimate accurate)) as Hcache.
    fold loop in Hloop, Hcache. destruct (loop c2) as [[] c3]. cbn [snd] in *.
    split_and!.
    + rewrite Hc2 in Hloop. rewrite (new_calls_app _ _ _ Hloop).
      by rewrite count_calls_app, He.
    + intros alias r Hin Hr. rewrite Hcache, decide_True by done.
      subst c2. cbn. by rewrite Hr.
    + intros key Hout. by rewrite Hcache, decide_False.
    + by rewrite <- app_assoc.
  - cbn. split_and!; [|done..].
    rewrite (new_calls_app _ _ _ Hc2). by rewrite count_calls_app, He.
Qed.

Lemma worker_estimates_missing_winstreaks_once_witness :
  let P := Examples.steve_stats None (Some 5%Z) in
  let c := Examples.steve_controller in
  let c' := (get_stats_and_winstreak P "Steve" [] c).2 in
  count_calls is_enrichment (new_calls c c') = 1
  ∧ (kp_winstreak <$> (player_cache c' !! "Steve" ≫= λ r,
       match r with Known p => Some p | _ => None end)) = Some (Some 5%Z).
Proof.
  intros P c c'.
  pose proof (worker_estimates_missing_winstreaks_once P "Steve" [] c) as Hjob.
  change (get_bedwars_stats P "Steve" c)
    with (Known (create_known_player (Examples.bedwars None) "Steve" "u1"
                   (Some "Steve")),
          (get_bedwars_stats P "Steve" c).2) in Hjob.
  fold c' in Hjob. destruct (get_stats_and_winstreak P "Steve" [] c) as [q c2].
  subst c'. cbn [snd] in *.
  change (is_missing_winstreaks _) with true in Hjob.
  destruct Hjob as [Hcount Hcache]. split; [exact Hcount|].
  change (answer_get_estimated_winstreaks _ _ _) with (Some 5%Z, true) in Hcache.
  destruct Hcache as [Halias _].
  rewrite (Halias "Steve" _ ltac:(by left) eq_refl). reflexivity.
Defined.

(** ** The sidelay players *)

Lemma finite_below_infinity v :
  Sidelay.is_finite v = true →
  Sidelay.value_lt v (Sidelay.VFloat Sidelay.FPosInf) = true.
Proof. by destruct v as [z|[q| | |]|s]. Qed.

(** C10.  A nicked player answers positive infinity for every stat and
    "unknown" for every property but "username", for which it answers the
    observed nickname.  Infinity is above every finite number, so above
    every finite stat a known player reports, and among players on the same
    side of the party the sort key of a nicked player is above the key of a
    known one. *)
Theorem nicked_player_is_unknown_and_sorts_above (self : Sidelay.NickedPlayer) :
  (∀ name, Sidelay.NickedPlayer_get_value self name = Sidelay.VFloat Sidelay.FPosInf)
  ∧ Sidelay.NickedPlayer_get_string self "username" = Sidelay.np_username self
  ∧ (∀ name, name ≠ "username" →
             Sidelay.NickedPlayer_get_string self name = "unknown")
  ∧ (∀ known name v,
       Sidelay.PlayerStats_get_value known name = Some v →
       Sidelay.is_finite v = true →
       Sidelay.value_lt v (Sidelay.NickedPlayer_get_value self name) = true)
  ∧ (∀ stats_lt party known,
       (Sidelay.ps_username known ∈ party ↔ Sidelay.np_username self ∈ party) →
       Sidelay.key_lt stats_lt
         (Sidelay.rate_stats party (Sidelay.StatsOf known))
         (Sidelay.rate_stats party (Sidelay.NickedOf self)) = true).
Proof.
  split_and!.
  - done.
  - done.
  - intros name Hname. unfold Sidelay.NickedPlayer_get_string.
    by rewrite decide_False.
  - intros known name v _ Hfinite. by apply finite_below_infinity.
  - intros stats_lt party known Hside. unfold Sidelay.rate_stats. cbn.
    rewrite (bool_decide_ext _ _ (not_iff_compat Hside)).
    by destruct (bool_decide _).
Qed.

Lemma nicked_player_is_unknown_and_sorts_above_witness :
  let self := Sidelay.mkNickedPlayer "AmazingNick" in
  Sidelay.NickedPlayer_get_string self "stars" = "unknown"
  ∧ Sidelay.value_lt (Sidelay.VFloat (Sidelay.FFinite (5 # 2)))
      (Sidelay.NickedPlayer_get_value self "fkdr") = true
  ∧ Sidelay.key_lt (λ _ _, false)
      (Sidelay.rate_stats ∅ (Sidelay.StatsOf Examples.sidelay_player1))
      (Sidelay.rate_stats ∅ (Sidelay.NickedOf self)) = true.
Proof.
  intros self.
  destruct (nicked_player_is_unknown_and_sorts_above self)
    as (_ & _ & Hstring & Hvalue & Hkey).
  split_and!.
  - apply Hstring. discriminate.
  - apply (Hvalue Examples.sidelay_player1 "fkdr"); reflexivity.
  - apply Hkey. split; intros Hin; by apply not_elem_of_empty in Hin.
Defined.

(** ** The sidelay resolver

    [Sidelay.get_bedwars_stats] follows the same steps over [NICK_DATABASE]
    alone. *)
Section sidelay.
Variable NICK_DATABASE : gmap string string.
Variable answer_get_uuid : list Sidelay.Lookup → string → option string.
Variable answer_get_player_data :
  list Sidelay.Lookup → string → string → option PlayerData.
Variable bedwars_level_from_exp : Z → Sidelay.PyValue.
Variable div : Z → Z → Sidelay.PyValue.

Let resolve :=
  Sidelay.get_bedwars_stats NICK_DATABASE answer_get_uuid answer_get_player_data
    bedwars_level_from_exp div.

(** No uuid from the identity provider and no entry in [NICK_DATABASE]:
    the player is assumed nicked, after the one lookup. *)
Lemma sidelay_unknown_name_is_nicked username api_key st :
  Sidelay.KNOWN_STATS st !! username = None →
  answer_get_uuid (Sidelay.lookups st) username = None →
  NICK_DATABASE !! username = None →
  resolve username api_key st
  = (Sidelay.NickedOf (Sidelay.mkNickedPlayer username),
     Sidelay.mkState
       (<[username := Sidelay.NickedOf (Sidelay.mkNickedPlayer username)]>
          (Sidelay.KNOWN_STATS st))
       (Sidelay.lookups st ++ [Sidelay.AskGetUuid username])).
Proof.
  intros Hmiss Huuid Hnick. unfold resolve, Sidelay.get_bedwars_stats.
  rewrite Hmiss. unfold Sidelay.try_get_uuid. by rewrite Huuid, Hnick.
Qed.

(** An identity hit without stats, for a name [NICK_DATABASE] binds: the
    stats are fetched once more, for the bound uuid, and that is the last
    lookup; the result is kept under the name and, when the fetch succeeds,
    under the display name as well, nick included. *)
Lemma sidelay_retries_once username api_key st uuid d :
  Sidelay.KNOWN_STATS st !! username = None →
  answer_get_uuid (Sidelay.lookups st) username = Some uuid →
  answer_get_player_data (Sidelay.lookups st ++ [Sidelay.AskGetUuid username])
    api_key uuid = None →
  NICK_DATABASE !! username = Some d →
  let asked := Sidelay.lookups st
               ++ [Sidelay.AskGetUuid username;
                   Sidelay.AskGetPlayerData api_key uuid] in
  let (stats, st') := resolve username api_key st in
  Sidelay.lookups st' = asked ++ [Sidelay.AskGetPlayerData api_key d]
  ∧ Sidelay.KNOWN_STATS st' !! username = Some stats
  ∧ match answer_get_player_data asked api_key d with
    | None => stats = Sidelay.NickedOf (Sidelay.mkNickedPlayer username)
    | Some playerdata =>
        stats = Sidelay.make_stats bedwars_level_from_exp div playerdata
                  (displayname playerdata) (Some username)
        ∧ Sidelay.KNOWN_STATS st' !! displayname playerdata = Some stats
    end.
Proof.
  intros Hmiss Huuid Hdata Hnick asked. subst asked.
  unfold resolve, Sidelay.get_bedwars_stats.
  rewrite Hmiss. unfold Sidelay.try_get_uuid, Sidelay.try_get_player_data.
  rewrite Huuid. cbn. rewrite Hdata, Hnick. cbn.
  rewrite <- !app_assoc. cbn.
  destruct (answer_get_player_data _ api_key d) as [playerdata|]; cbn.
  - split_and!; [done | apply lookup_insert_eq | done |].
    destruct (decide (username = displayname playerdata)) as [<-|Hne].
    + apply lookup_insert_eq.
    + rewrite lookup_insert_ne by done. apply lookup_insert_eq.
  - split_and!; [done | apply lookup_insert_eq | done].
Qed.

End sidelay.

(** * Further properties *)

(** ** The redraw decision *)

Lemma drain_completed_stats_spec lobby_players queue redraw :
  drain_completed_stats lobby_players queue redraw
  = (redraw || bool_decide (Exists (λ username, username ∈ lobby_players) queue),
     []).
Proof.
  revert redraw.
  induction queue as [|username queue IH]; intros redraw;
    cbn [drain_completed_stats].
  - rewrite bool_decide_false; [by rewrite orb_false_r|].
    by intros ?%Exists_nil.
  - rewrite IH. f_equal.
    destruct redraw; cbn [negb orb]; [done|].
    destruct (decide (username ∈ lobby_players)) as [Hin|Hout]; cbn [orb].
    + symmetry. apply bool_decide_eq_true. by left.
    + apply bool_decide_ext. rewrite Exists_cons. tauto.
Qed.

Lemma should_redraw_eq lobby_players queue c :
  should_redraw lobby_players queue c
  = ((redraw_event c
      || bool_decide (Exists (λ username, username ∈ lobby_players) queue), []),
     with_redraw_event false c).
Proof.
  unfold should_redraw. rewrite drain_completed_stats_spec.
  destruct (redraw_event c) eqn:Hevent; cbn; [done|].
  destruct (bool_decide _); [done|]. destruct c; cbn in *. by subst.
Qed.

(** X1.  [should_redraw] answers true exactly when the redraw event was set
    or one of the completed usernames is in the lobby; it takes every
    username off the queue, leaves the redraw event unset, and changes
    nothing else of the controller. *)
Theorem should_redraw_decides lobby_players queue c :
  let '(redraw, queue', c') := should_redraw lobby_players queue c in
  (redraw = true ↔
     redraw_event c = true ∨ ∃ username, username ∈ queue ∧ username ∈ lobby_players)
  ∧ queue' = []
  ∧ redraw_event c' = false
  ∧ c' = with_redraw_event false c.
Proof.
  rewrite should_redraw_eq. split_and!; [|done..].
  rewrite orb_true_iff, bool_decide_eq_true, Exists_exists. naive_solver.
Qed.

(** X2.  Two decisions in a row: whatever the first one answered, a second
    one with no new completion answers false. *)
Theorem should_redraw_once lobby_players queue c :
  let '(_, queue', c') := should_redraw lobby_players queue c in
  (should_redraw lobby_players queue' c').1 = (false, []).
Proof. by rewrite !should_redraw_eq. Qed.

(** ** Log lines *)

(** X3.  Lines that parse to no event are skipped: both [process_loglines]
    and [fast_forward_state] act on a log as on its lines that parse. *)
Theorem unparsed_lines_are_skipped {World} parse_logline
    (process_event : Event → World → bool * World) set_redraw_event loglines w :
  let parsed := filter (λ line, is_Some (parse_logline line)) loglines in
  process_loglines World parse_logline process_event set_redraw_event loglines w
  = process_loglines World parse_logline process_event set_redraw_event parsed w
  ∧ fast_forward_state World parse_logline process_event loglines w
    = fast_forward_state World parse_logline process_event parsed w.
Proof.
  cbn. revert w. induction loglines as [|line loglines IH]; intros w; [done|].
  rewrite filter_cons. cbn.
  destruct (parse_logline line) as [event|] eqn:Hparse.
  - rewrite decide_True by done. cbn. rewrite Hparse.
    destruct (process_event event w) as [redraw w']. cbn.
    split; apply IH.
  - rewrite decide_False by (by intros [? ?]). apply IH.
Qed.

(** X4.  When no event of the log asks for a redraw, [process_loglines]
    does what [fast_forward_state] does. *)
Theorem process_loglines_without_redraw {World} parse_logline
    (process_event : Event → World → bool * World) set_redraw_event loglines w :
  (∀ line event w', line ∈ loglines → parse_logline line = Some event →
                    (process_event event w').1 = false) →
  process_loglines World parse_logline process_event set_redraw_event loglines w
  = fast_forward_state World parse_logline process_event loglines w.
Proof.
  revert w. induction loglines as [|line loglines IH]; intros w Hquiet; [done|].
  assert (Hrest : ∀ line event w', line ∈ loglines →
            parse_logline line = Some event → (process_event event w').1 = false).
  { intros l e w' Hin. apply Hquiet. by right. }
  cbn. destruct (parse_logline line) as [event|] eqn:Hparse; [|by apply IH].
  pose proof (Hquiet line event w ltac:(by left) Hparse) as Hq.
  destruct (process_event event w) as [redraw w']. cbn in *. subst redraw.
  by apply IH.
Qed.

(** ** The three outcomes of [set_nickname] *)

(** What a call leaves behind, by what it found: nothing to bind
    ([unbinds]), a first binding for the uuid ([binds_fresh]), or a binding
    moved from [old_nick] ([moves]). *)
Lemma set_nickname_unbinds_eq P username nick c :
  match username with
  | None => True
  | Some username => answer_get_uuid P (calls c) username = None
  end →
  let c' := (set_nickname P username nick c).2 in
  known_nicks (settings c') = PyDict.pop (known_nicks (settings c)) nick
  ∧ stored_settings c' = settings c'
  ∧ nick_database c'
    = mkNickDatabase (delete nick (default_database (nick_database c)))
        (other_databases (nick_database c))
  ∧ player_cache c' = delete nick (player_cache c).
Proof.
  intros Hnone. unfold set_nickname, bind.
  destruct username as [username|]; cbn.
  - rewrite Hnone. cbn. by rewrite delete_delete_eq.
  - by rewrite delete_delete_eq.
Qed.

Lemma set_nickname_binds_fresh_eq P username nick c uuid :
  answer_get_uuid P (calls c) username = Some uuid →
  find_nick_of_uuid (known_nicks (settings c)) uuid = None →
  let c' := (set_nickname P (Some username) nick c).2 in
  known_nicks (settings c')
  = PyDict.set (known_nicks (settings c)) nick (mkNickValue uuid username)
  ∧ stored_settings c' = settings c'
  ∧ nick_database c'
    = mkNickDatabase (<[nick := uuid]> (default_database (nick_database c)))
        (other_databases (nick_database c))
  ∧ player_cache c' = delete nick (player_cache c).
Proof.
  intros Huuid Hfind. unfold set_nickname, bind, get_uuid.
  rewrite Huuid. cbn. by rewrite Hfind.
Qed.

Lemma set_nickname_moves_eq P username nick c uuid old_nick nick_value :
  answer_get_uuid P (calls c) username = Some uuid →
  find_nick_of_uuid (known_nicks (settings c)) uuid = Some (old_nick, nick_value) →
  let c' := (set_nickname P (Some username) nick c).2 in
  known_nicks (settings c')
  = PyDict.set (PyDict.pop (known_nicks (settings c)) old_nick) nick nick_value
  ∧ stored_settings c' = settings c'
  ∧ nick_database c'
    = mkNickDatabase
        (<[nick := uuid]> (delete old_nick (default_database (nick_database c))))
        (other_databases (nick_database c))
  ∧ player_cache c' = delete nick (delete old_nick (player_cache c)).
Proof.
  intros Huuid Hfind. unfold set_nickname, bind, get_uuid.
  rewrite Huuid. cbn. by rewrite Hfind.
Qed.

Lemma pydict_get_elem {V} (d : list (string * V)) k v :
  PyDict.get d k = Some v → (k, v) ∈ d.
Proof.
  induction d as [|[k0 v0] d IH]; cbn; [done|].
  destruct (decide (k0 = k)) as [->|Hne].
  - intros [= ->]. by left.
  - intros Hget. right. by apply IH.
Qed.

Lemma pydict_elem_get {V} (d : list (string * V)) k v :
  NoDup (PyDict.keys d) → (k, v) ∈ d → PyDict.get d k = Some v.
Proof.
  unfold PyDict.keys. induction d as [|[k0 v0] d IH]; cbn.
  - by intros _ ?%elem_of_nil.
  - intros [Hfresh Hd]%NoDup_cons [[= -> ->]|Hin]%elem_of_cons.
    + by rewrite decide_True.
    + rewrite decide_False; [by apply IH|].
      intros ->. apply Hfresh. apply list_elem_of_fmap. by exists (k, v).
Qed.

Lemma pydict_pop_NoDup {V} (d : list (string * V)) k :
  NoDup (PyDict.keys d) → NoDup (PyDict.keys (PyDict.pop d k)).
Proof.
  induction d as [|[k0 v0] d IH]; cbn; [done|].
  intros [Hfresh Hd]%NoDup_cons.
  destruct (decide (k0 = k)) as [->|Hne]; [by apply IH|].
  cbn. apply NoDup_cons. split; [|by apply IH].
  change (k0 ∉ PyDict.keys (PyDict.pop d k)).
  rewrite pydict_elem_of_keys, pydict_get_pop_ne by done.
  by rewrite <- pydict_elem_of_keys.
Qed.

Lemma pydict_set_NoDup {V} (d : list (string * V)) k v :
  NoDup (PyDict.keys d) → NoDup (PyDict.keys (PyDict.set d k v)).
Proof.
  induction d as [|[k0 v0] d IH]; cbn.
  - intros _. apply NoDup_singleton.
  - intros [Hfresh Hd]%NoDup_cons.
    destruct (decide (k0 = k)) as [->|Hne]; cbn.
    + by apply NoDup_cons.
    + apply NoDup_cons. split; [|by apply IH].
      change (k0 ∉ PyDict.keys (PyDict.set d k v)).
      rewrite pydict_elem_of_keys, pydict_get_set_ne by done.
      by rewrite <- pydict_elem_of_keys.
Qed.

(** X5.  Unbinding.  Called without a username, or with one the identity
    provider does not know, [set_nickname] removes the nickname from
    [known_nicks], from the default table and from the cache, writes the
    settings out, and leaves every other entry of the three as it was. *)
Theorem set_nickname_unbinds P username nick c :
  (∀ u, username = Some u → answer_get_uuid P (calls c) u = None) →
  let c' := (set_nickname P username nick c).2 in
  PyDict.get (known_nicks (settings c')) nick = None
  ∧ default_database (nick_database c') !! nick = None
  ∧ player_cache c' !! nick = None
  ∧ stored_settings c' = settings c'
  ∧ ∀ other, other ≠ nick →
      PyDict.get (known_nicks (settings c')) other
      = PyDict.get (known_nicks (settings c)) other
      ∧ default_database (nick_database c') !! other
        = default_database (nick_database c) !! other
      ∧ player_cache c' !! other = player_cache c !! other.
Proof.
  intros Hnone c'. subst c'.
  destruct (set_nickname_unbinds_eq P username nick c) as (-> & -> & -> & ->).
  { destruct username; [by apply Hnone | done]. }
  cbn. rewrite pydict_get_pop_eq, !lookup_delete_eq. split_and!; [done..|].
  intros other Hne.
  by rewrite pydict_get_pop_ne, !lookup_delete_ne.
Qed.

(** X6.  A first binding.  When the identity provider knows the username
    and no nickname is bound to its uuid yet, [set_nickname] binds the
    nickname to the uuid, with the username as comment, in [known_nicks]
    and in the default table, drops the cache entry of the nickname, and
    leaves every other entry of the three as it was. *)
Theorem set_nickname_binds_fresh P username nick c uuid :
  answer_get_uuid P (calls c) username = Some uuid →
  find_nick_of_uuid (known_nicks (settings c)) uuid = None →
  let c' := (set_nickname P (Some username) nick c).2 in
  PyDict.get (known_nicks (settings c')) nick = Some (mkNickValue uuid username)
  ∧ default_database (nick_database c') !! nick = Some uuid
  ∧ player_cache c' !! nick = None
  ∧ stored_settings c' = settings c'
  ∧ ∀ other, other ≠ nick →
      PyDict.get (known_nicks (settings c')) other
      = PyDict.get (known_nicks (settings c)) other
      ∧ default_database (nick_database c') !! other
        = default_database (nick_database c) !! other
      ∧ player_cache c' !! other = player_cache c !! other.
Proof.
  intros Huuid Hfind c'. subst c'.
  destruct (set_nickname_binds_fresh_eq P username nick c uuid Huuid Hfind)
    as (-> & -> & -> & ->).
  cbn. rewrite pydict_get_set_eq, lookup_insert_eq, lookup_delete_eq.
  split_and!; [done..|]. intros other Hne.
  by rewrite pydict_get_set_ne, lookup_insert_ne, lookup_delete_ne.
Qed.

(** X7.  [set_nickname] keeps the default table in step with
    [known_nicks]: if every nickname had the uuid of its [known_nicks] entry
    in the default table before the call, so it has after it, whatever the
    arguments and whatever the identity provider answers. *)
Theorem set_nickname_keeps_tables_in_step P username nick c :
  tables_in_step c →
  tables_in_step (set_nickname P username nick c).2.
Proof.
  intros Hstep other. specialize (Hstep other).
  destruct username as [username|];
    [destruct (answer_get_uuid P (calls c) username) as [uuid|] eqn:Huuid|].
  - destruct (find_nick_of_uuid (known_nicks (settings c)) uuid)
      as [[old_nick nick_value]|] eqn:Hfind.
    + destruct (set_nickname_moves_eq P username nick c uuid old_nick nick_value
                  Huuid Hfind) as (-> & _ & -> & _).
      apply find_nick_of_uuid_Some in Hfind as [Hvalue _]. cbn.
      destruct (decide (nick = other)) as [->|Hnick].
      { by rewrite lookup_insert_eq, pydict_get_set_eq, <- Hvalue. }
      rewrite lookup_insert_ne, pydict_get_set_ne by done.
      destruct (decide (old_nick = other)) as [->|Hold].
      { by rewrite lookup_delete_eq, pydict_get_pop_eq. }
      by rewrite lookup_delete_ne, pydict_get_pop_ne.
    + destruct (set_nickname_binds_fresh_eq P username nick c uuid Huuid Hfind)
        as (-> & _ & -> & _). cbn.
      destruct (decide (nick = other)) as [->|Hnick].
      { by rewrite lookup_insert_eq, pydict_get_set_eq. }
      by rewrite lookup_insert_ne, pydict_get_set_ne.
  - destruct (set_nickname_unbinds_eq P (Some username) nick c Huuid)
      as (-> & _ & -> & _). cbn.
    destruct (decide (nick = other)) as [->|Hnick].
    { by rewrite lookup_delete_eq, pydict_get_pop_eq. }
    by rewrite lookup_delete_ne, pydict_get_pop_ne.
  - destruct (set_nickname_unbinds_eq P None nick c I) as (-> & _ & -> & _). cbn.
    destruct (decide (nick = other)) as [->|Hnick].
    { by rewrite lookup_delete_eq, pydict_get_pop_eq. }
    by rewrite lookup_delete_ne, pydict_get_pop_ne.
Qed.

(** X8.  [set_nickname] keeps [known_nicks] a dictionary in which no two
    nicknames are bound to the same uuid: the binding it finds for the uuid
    is the one it replaces. *)
Theorem set_nickname_keeps_one_nick_per_uuid P username nick c :
  NoDup (PyDict.keys (known_nicks (settings c))) →
  one_nick_per_uuid (known_nicks (settings c)) →
  let d' := known_nicks (settings (set_nickname P username nick c).2) in
  NoDup (PyDict.keys d') ∧ one_nick_per_uuid d'.
Proof.
  set (d := known_nicks (settings c)). intros Hkeys Hone d'. subst d'.
  assert (Hunbound : NoDup (PyDict.keys (PyDict.pop d nick))
                     ∧ one_nick_per_uuid (PyDict.pop d nick)).
  { split; [by apply pydict_pop_NoDup|]. intros k1 k2 v1 v2 H1 H2.
    destruct (decide (nick = k1)) as [->|?]; [by rewrite pydict_get_pop_eq in H1|].
    destruct (decide (nick = k2)) as [->|?]; [by rewrite pydict_get_pop_eq in H2|].
    rewrite pydict_get_pop_ne in H1, H2 by done. by apply Hone. }
  destruct username as [username|];
    [destruct (answer_get_uuid P (calls c) username) as [uuid|] eqn:Huuid|].
  - destruct (find_nick_of_uuid d uuid) as [[old_nick nick_value]|] eqn:Hfind.
    + destruct (set_nickname_moves_eq P username nick c uuid old_nick nick_value
                  Huuid Hfind) as (-> & _). fold d.
      apply find_nick_of_uuid_Some in Hfind as [Hvalue Hin].
      apply (pydict_elem_get _ _ _ Hkeys) in Hin.
      split; [by apply pydict_set_NoDup, pydict_pop_NoDup|].
      assert (Hcases : ∀ k v,
        PyDict.get (PyDict.set (PyDict.pop d old_nick) nick nick_value) k = Some v →
        (k = nick ∧ v = nick_value)
        ∨ (k ≠ nick ∧ k ≠ old_nick ∧ PyDict.get d k = Some v)).
      { intros k v. destruct (decide (nick = k)) as [->|?].
        - rewrite pydict_get_set_eq. intros [= ->]. by left.
        - rewrite pydict_get_set_ne by done.
          destruct (decide (old_nick = k)) as [->|?];
            [by rewrite pydict_get_pop_eq|].
          rewrite pydict_get_pop_ne by done. intros Hk. right. by split_and!. }
      intros k1 k2 v1 v2 [[-> ->]|(? & Hold1 & H1)]%Hcases
        [[-> ->]|(? & Hold2 & H2)]%Hcases Hsame; [done| | |by eapply Hone].
      * destruct Hold2. by apply (Hone k2 old_nick v2 nick_value).
      * destruct Hold1. by apply (Hone k1 old_nick v1 nick_value).
    + destruct (set_nickname_binds_fresh_eq P username nick c uuid Huuid Hfind)
        as (-> & _). fold d.
      split; [by apply pydict_set_NoDup|].
      assert (Hcases : ∀ k v,
        PyDict.get (PyDict.set d nick (mkNickValue uuid username)) k = Some v →
        (k = nick ∧ nv_uuid v = uuid) ∨ (k ≠ nick ∧ nv_uuid v ≠ uuid
                                         ∧ PyDict.get d k = Some v)).
      { intros k v. destruct (decide (nick = k)) as [->|?].
        - rewrite pydict_get_set_eq. intros [= <-]. by left.
        - rewrite pydict_get_set_ne by done. intros Hk. right.
          split_and!; [done| |done].
          by apply (find_nick_of_uuid_None _ _ Hfind k), pydict_get_elem. }
      intros k1 k2 v1 v2 [[-> Hu1]|(? & Hu1 & H1)]%Hcases
        [[-> Hu2]|(? & Hu2 & H2)]%Hcases Hsame;
        [done | congruence | congruence | by eapply Hone].
  - by destruct (set_nickname_unbinds_eq P (Some username) nick c Huuid) as (-> & _).
  - by destruct (set_nickname_unbinds_eq P None nick c I) as (-> & _).
Qed.

(** A nickname bound in the default table, unknown to the identity provider
    and not cached, is resolved with three lookups: identity, default
    table, stats of the bound uuid. *)
Lemma resolve_bound_nick P nick c uuid :
  default_database (nick_database c) !! nick = Some uuid →
  player_cache c !! nick = None →
  answer_get_uuid P (calls c) nick = None →
  let (player, c') := get_bedwars_stats P nick c in
  new_calls c c' = [CallGetUuid nick; CallGetDefault nick; CallGetPlayerData uuid]
  ∧ player
    = match answer_get_player_data P
              (calls c ++ [CallGetUuid nick; CallGetDefault nick]) uuid with
      | Some pd => Known (create_known_player pd (displayname pd) uuid (Some nick))
      | None => Nicked nick
      end.
Proof.
  intros Hbound Hmiss Hunknown.
  rewrite get_bedwars_stats_miss by (intros r Hr; congruence).
  rewrite fetch_and_cache_eq.
  rewrite (fetch_without_identity P nick c (with_call (CallGetUuid nick) c))
    by (unfold get_uuid; by rewrite Hunknown).
  unfold denick, bind, nick_database_get_default, ret. cbn.
  rewrite Hbound. unfold get_player_data. cbn.
  rewrite <- !app_assoc. cbn.
  split.
  - apply new_calls_app.
    destruct (answer_get_player_data P _ uuid); cbn; by rewrite <- !app_assoc.
  - by destruct (answer_get_player_data P _ uuid).
Qed.

(** X9.  Setting a nickname and then resolving it.  After
    [set_nickname(username, nick)] with a username the identity provider
    knows, resolving [nick] (which the identity provider does not know)
    fetches the stats of that username's uuid: the default table answers, the
    denick API is not asked, and the result is Known under [nick] when the
    stats provider has the record, Nicked otherwise. *)
Theorem set_nickname_then_resolve P username nick c uuid :
  answer_get_uuid P (calls c) username = Some uuid →
  let c1 := (set_nickname P (Some username) nick c).2 in
  answer_get_uuid P (calls c1) nick = None →
  let (player, c2) := get_bedwars_stats P nick c1 in
  new_calls c1 c2 = [CallGetUuid nick; CallGetDefault nick; CallGetPlayerData uuid]
  ∧ player
    = match answer_get_player_data P
              (calls c1 ++ [CallGetUuid nick; CallGetDefault nick]) uuid with
      | Some pd => Known (create_known_player pd (displayname pd) uuid (Some nick))
      | None => Nicked nick
      end.
Proof.
  intros Huuid c1 Hunknown.
  apply resolve_bound_nick; [| |done]; subst c1.
  - destruct (find_nick_of_uuid (known_nicks (settings c)) uuid)
      as [[old_nick nick_value]|] eqn:Hfind.
    + destruct (set_nickname_moves_eq P username nick c uuid old_nick nick_value
                  Huuid Hfind) as (_ & _ & -> & _).
      apply lookup_insert_eq.
    + destruct (set_nickname_binds_fresh_eq P username nick c uuid Huuid Hfind)
        as (_ & _ & -> & _).
      apply lookup_insert_eq.
  - destruct (find_nick_of_uuid (known_nicks (settings c)) uuid)
      as [[old_nick nick_value]|] eqn:Hfind.
    + destruct (set_nickname_moves_eq P username nick c uuid old_nick nick_value
                  Huuid Hfind) as (_ & _ & _ & ->).
      apply lookup_delete_eq.
    + destruct (set_nickname_binds_fresh_eq P username nick c uuid Huuid Hfind)
        as (_ & _ & _ & ->).
      apply lookup_delete_eq.
Qed.

(** X10.  What [set_nickname] leaves alone.  It asks the identity provider
    once when given a username and makes no other call; it adds nothing to
    the cache; and the cache entry of a name that is neither the new
    nickname nor a nickname bound in [known_nicks] stays as it was. *)
Theorem set_nickname_frame P username nick c :
  let c' := (set_nickname P username nick c).2 in
  new_calls c c' = match username with
                   | Some username => [CallGetUuid username]
                   | None => []
                   end
  ∧ (∀ key r, player_cache c' !! key = Some r → player_cache c !! key = Some r)
  ∧ (∀ key, key ≠ nick →
            PyDict.get (known_nicks (settings c)) key = None →
            player_cache c' !! key = player_cache c !! key).
Proof.
  intros c'. subst c'. split.
  { unfold set_nickname, bind, get_uuid.
    destruct username as [username|]; cbn.
    - apply new_calls_app.
      destruct (answer_get_uuid P (calls c) username) as [uuid|]; cbn; [|done].
      by destruct (find_nick_of_uuid _ uuid) as [[? ?]|].
    - unfold new_calls. apply drop_all. }
  assert (Hcache : ∃ dropped : list string,
    player_cache (set_nickname P username nick c).2
    = foldr delete (player_cache c) dropped
    ∧ ∀ key, key ∈ dropped →
             key = nick ∨ is_Some (PyDict.get (known_nicks (settings c)) key)).
  { destruct username as [username|];
      [destruct (answer_get_uuid P (calls c) username) as [uuid|] eqn:Huuid|].
    - destruct (find_nick_of_uuid (known_nicks (settings c)) uuid)
        as [[old_nick nick_value]|] eqn:Hfind.
      + destruct (set_nickname_moves_eq P username nick c uuid old_nick nick_value
                    Huuid Hfind) as (_ & _ & _ & ->).
        exists [nick; old_nick]. split; [done|].
        apply find_nick_of_uuid_Some in Hfind as [_ Hin].
        intros key [->|[->|[]%elem_of_nil]%elem_of_cons]%elem_of_cons; [by left|].
        right. apply pydict_elem_of_keys, list_elem_of_fmap. by eexists (_, _).
      + destruct (set_nickname_binds_fresh_eq P username nick c uuid Huuid Hfind)
          as (_ & _ & _ & ->).
        exists [nick]. split; [done|]. intros key ->%list_elem_of_singleton. by left.
    - destruct (set_nickname_unbinds_eq P (Some username) nick c Huuid)
        as (_ & _ & _ & ->).
      exists [nick]. split; [done|]. intros key ->%list_elem_of_singleton. by left.
    - destruct (set_nickname_unbinds_eq P None nick c I) as (_ & _ & _ & ->).
      exists [nick]. split; [done|]. intros key ->%list_elem_of_singleton. by left. }
  destruct Hcache as (dropped & -> & Hdropped).
  assert (Hlookup : ∀ key,
    foldr delete (player_cache c) dropped !! key
    = if decide (key ∈ dropped) then None else player_cache c !! key).
  { intros key. clear Hdropped. induction dropped as [|k dropped IH]; cbn.
    - by rewrite decide_False by apply not_elem_of_nil.
    - rewrite lookup_delete, IH. repeat case_decide; set_solver. }
  split.
  - intros key r. rewrite Hlookup. by case_decide.
  - intros key Hnick Hunbound. rewrite Hlookup, decide_False; [done|].
    intros [->|[v Hv]]%Hdropped; congruence.
Qed.

(** ** More on [update_settings] *)

Lemma elem_of_set_of_keys d k :
  k ∈ set_of_keys d ↔ is_Some (PyDict.get d k).
Proof. unfold set_of_keys. by rewrite elem_of_list_to_set, pydict_elem_of_keys. Qed.

(** A nickname is added, removed or updated exactly when its entry in
    [known_nicks] is not the same before and after. *)
Lemma touched_nicknames_iff new_known_nicks old_known_nicks k :
  k ∈ added_nicknames new_known_nicks old_known_nicks
      ∪ removed_nicknames new_known_nicks old_known_nicks
      ∪ updated_nicknames new_known_nicks old_known_nicks
  ↔ PyDict.get new_known_nicks k ≠ PyDict.get old_known_nicks k.
Proof.
  unfold added_nicknames, removed_nicknames, updated_nicknames, uuid_changed.
  rewrite !elem_of_union, !elem_of_difference, elem_of_filter, elem_of_intersection,
    !elem_of_set_of_keys.
  destruct (PyDict.get new_known_nicks k) as [v|],
           (PyDict.get old_known_nicks k) as [v'|];
    rewrite ?is_Some_alt; naive_solver.
Qed.

(** X11.  Without a credential change, [update_settings] drops the cache
    entry of a name exactly when the name's [known_nicks] entry (uuid and
    comment) is not the same in the new settings as in the current ones:
    bound now and not before, before and not now, or to a different value.
    Every other cache entry stays. *)
Theorem update_settings_uncaches_changed_entries new_settings c key :
  api_keys_changed new_settings (settings c) = false →
  player_cache (update_settings new_settings c).2 !! key
  = if decide (PyDict.get (known_nicks new_settings) key
               ≠ PyDict.get (known_nicks (settings c)) key)
    then None else player_cache c !! key.
Proof.
  intros Hkeys. rewrite (update_settings_uncaches _ _ _ Hkeys).
  pose proof (touched_nicknames_iff (known_nicks new_settings)
                (known_nicks (settings c)) key).
  repeat case_decide; naive_solver.
Qed.

(** X12.  [update_settings] empties the cache when the hypixel key changes,
    when the antisniper key changes and the new settings use that API, and
    when the use of that API is switched while the new settings hold an
    antisniper key. *)
Theorem update_settings_clears_on_credentials new_settings c key :
  hypixel_api_key new_settings ≠ hypixel_api_key (settings c)
  ∨ (antisniper_api_key new_settings ≠ antisniper_api_key (settings c)
     ∧ use_antisniper_api new_settings = true)
  ∨ (use_antisniper_api new_settings ≠ use_antisniper_api (settings c)
     ∧ antisniper_api_key new_settings ≠ None) →
  player_cache (update_settings new_settings c).2 !! key = None.
Proof.
  intros Hchanged. apply update_settings_clears. by apply api_keys_changed_iff.
Qed.

(** The two loops of [update_settings] over the default table. *)
Lemma for_each_delete_default (l : list string) c k :
  default_database
    (nick_database
       (for_each l (λ nickname, modify (with_default_database (delete nickname))) c).2)
  !! k
  = if decide (k ∈ l) then None else default_database (nick_database c) !! k.
Proof.
  revert c. induction l as [|x l IH]; intros c.
  - case_decide as Hin; [by apply elem_of_nil in Hin | done].
  - cbn [for_each]. unfold bind, modify at 1.
    rewrite IH. cbn. rewrite lookup_delete. repeat case_decide; set_solver.
Qed.

Lemma for_each_insert_default (known : list (string * NickValue))
    (l : list string) c k :
  default_database
    (nick_database
       (for_each l (λ nickname,
          when_some (PyDict.get known nickname) (λ v,
            modify (with_default_database (insert nickname (nv_uuid v))))) c).2)
  !! k
  = match decide (k ∈ l), PyDict.get known k with
    | left _, Some v => Some (nv_uuid v)
    | _, _ => default_database (nick_database c) !! k
    end.
Proof.
  revert c. induction l as [|x l IH]; intros c.
  - case_decide as Hin; [by apply elem_of_nil in Hin | done].
  - cbn [for_each]. unfold bind.
    set (body := when_some (PyDict.get known x) _).
    assert (Hbody : default_database (nick_database (body c).2) !! k
      = match PyDict.get known x with
        | Some v => <[x := nv_uuid v]> (default_database (nick_database c)) !! k
        | None => default_database (nick_database c) !! k
        end).
    { subst body. by destruct (PyDict.get known x). }
    destruct (body c) as [[] c1]. cbn [snd] in Hbody. rewrite IH, Hbody.
    destruct (decide (x = k)) as [->|Hne].
    + rewrite (decide_True (P := k ∈ k :: l)) by (by left).
      destruct (PyDict.get known k) as [v|]; [|by case_decide].
      rewrite lookup_insert_eq. by case_decide.
    + assert (k ∈ x :: l ↔ k ∈ l) as Hin by set_solver.
      destruct (PyDict.get known x) as [v|];
        rewrite ?lookup_insert_ne by done;
        repeat case_decide; tauto.
Qed.

(** The default table after [update_settings]. *)
Lemma update_settings_default_database new_settings c k :
  let new_known := known_nicks new_settings in
  let old_known := known_nicks (settings c) in
  default_database (nick_database (update_settings new_settings c).2) !! k
  = match decide (k ∈ added_nicknames new_known old_known
                      ∪ updated_nicknames new_known old_known),
          PyDict.get new_known k with
    | left _, Some v => Some (nv_uuid v)
    | _, _ =>
        if decide (k ∈ removed_nicknames new_known old_known) then None
        else default_database (nick_database c) !! k
    end.
Proof.
  intros new_known old_known. unfold update_settings.
  fold new_known old_known.
  set (first_step := if api_keys_changed _ _ then _ else _).
  assert (Hfirst : nick_database (first_step c).2 = nick_database c).
  { subst first_step. destruct (api_keys_changed _ _); [done|].
    unfold bind, for_each_in.
    pose proof (for_each_preserves nick_database
      (elements (added_nicknames new_known old_known
                 ∪ removed_nicknames new_known old_known))
      uncache_player c (λ _ _, eq_refl)) as H1.
    destruct (for_each _ uncache_player c) as [[] c1]. cbn [snd] in *.
    rewrite <- H1. by apply (for_each_preserves nick_database). }
  unfold bind at 1. destruct (first_step c) as [[] c1]. cbn [snd] in Hfirst.
  unfold bind at 1, for_each_in at 1.
  pose proof (for_each_delete_default
    (elements (removed_nicknames new_known old_known)) c1) as Hloop1.
  destruct (for_each _ _ c1) as [[] c2]. cbn [snd] in Hloop1.
  unfold bind at 1, for_each_in at 1.
  pose proof (for_each_insert_default new_known
    (elements (added_nicknames new_known old_known
               ∪ updated_nicknames new_known old_known)) c2 k) as Hloop2.
  destruct (for_each _ _ c2) as [[] c3]. cbn [snd] in Hloop2.
  unfold bind, modify, store_settings. cbn.
  rewrite Hloop2, Hloop1, Hfirst.
  repeat case_decide; repeat case_match; try done; set_solver.
Qed.

(** The settings after [update_settings] are the new ones, in memory and
    written out, and a redraw is requested. *)
Lemma update_settings_settings new_settings c :
  settings (update_settings new_settings c).2 = new_settings
  ∧ stored_settings (update_settings new_settings c).2 = new_settings
  ∧ redraw_event (update_settings new_settings c).2 = true.
Proof.
  assert (∃ c3, update_settings new_settings c
                = (tt, with_stored_settings new_settings
                         (with_settings (λ _, new_settings)
                            (with_redraw_event true c3)))) as [c3 ->].
  { unfold update_settings.
    set (first_step := if api_keys_changed _ _ then _ else _).
    unfold bind at 1. destruct (first_step c) as [[] c1].
    unfold bind at 1. destruct (for_each_in _ _ c1) as [[] c2].
    unfold bind at 1. destruct (for_each_in _ _ c2) as [[] c3].
    by exists c3. }
  done.
Qed.

(** X13.  [update_settings] keeps the default table in step with
    [known_nicks]: if every nickname had the uuid of its current entry in
    the default table, then after the update every nickname has the uuid of
    its new entry there. *)
Theorem update_settings_keeps_tables_in_step new_settings c :
  tables_in_step c →
  tables_in_step (update_settings new_settings c).2.
Proof.
  intros Hstep k. specialize (Hstep k).
  rewrite update_settings_default_database.
  destruct (update_settings_settings new_settings c) as (-> & _).
  set (new_known := known_nicks new_settings).
  set (old_known := known_nicks (settings c)) in *.
  pose proof (touched_nicknames_iff new_known old_known k) as Htouched.
  assert (Hremoved : k ∈ removed_nicknames new_known old_known
                     → PyDict.get new_known k = None).
  { unfold removed_nicknames. rewrite elem_of_difference, !elem_of_set_of_keys.
    intros [_ Hnew]. by apply eq_None_not_Some. }
  assert (Hadded : k ∈ added_nicknames new_known old_known
                       ∪ updated_nicknames new_known old_known
                   → is_Some (PyDict.get new_known k)).
  { unfold added_nicknames, updated_nicknames.
    rewrite elem_of_union, elem_of_difference, elem_of_filter,
      elem_of_intersection, !elem_of_set_of_keys. tauto. }
  destruct (decide (k ∈ added_nicknames new_known old_known
                        ∪ updated_nicknames new_known old_known)) as [Hin|Hout].
  - destruct (Hadded Hin) as [v Hv]. by rewrite Hv.
  - assert (match PyDict.get new_known k with
            | Some _ | _ =>
                if decide (k ∈ removed_nicknames new_known old_known) then None
                else default_database (nick_database c) !! k
            end = nv_uuid <$> PyDict.get new_known k) as Hgoal.
    { replace (match PyDict.get new_known k with Some _ | _ => _ end)
        with (if decide (k ∈ removed_nicknames new_known old_known) then None
              else default_database (nick_database c) !! k)
        by (by destruct (PyDict.get new_known k)).
      case_decide as Hrem; [by rewrite Hremoved|].
      rewrite Hstep. f_equal.
      destruct (decide (PyDict.get new_known k = PyDict.get old_known k)); [done|].
      apply Htouched in n. set_solver. }
    by destruct (PyDict.get new_known k).
Qed.

Lemma api_keys_unchanged s : api_keys_changed s s = false.
Proof. unfold api_keys_changed. by rewrite !bool_decide_false by naive_solver. Qed.

Lemma touched_nicknames_same d :
  added_nicknames d d = ∅ ∧ removed_nicknames d d = ∅ ∧ updated_nicknames d d = ∅.
Proof.
  split_and!; apply set_eq; intros k;
    pose proof (touched_nicknames_iff d d k); set_solver.
Qed.

(** X14.  Applying the settings that are already in force changes nothing
    in the cache or in the nick database; in particular a second
    [update_settings] with the same settings leaves the controller exactly
    as the first one left it. *)
Theorem update_settings_twice new_settings c :
  let c1 := (update_settings new_settings c).2 in
  update_settings new_settings c1 = (tt, c1).
Proof.
  intros c1.
  destruct (update_settings_settings new_settings c) as (Hs & Hstored & Hredraw).
  fold c1 in Hs, Hstored, Hredraw. clearbody c1.
  unfold update_settings. rewrite Hs, api_keys_unchanged.
  destruct (touched_nicknames_same (known_nicks new_settings)) as (-> & -> & ->).
  unfold for_each_in. rewrite !union_empty_l_L, elements_empty. cbn.
  destruct c1. cbn in *. by subst.
Qed.

(** ** More on the resolver *)

(** The lookups of one run of [denick], and of one resolution. *)
Lemma denick_trace P nick c :
  ∃ D, (denick P nick c).2 = with_calls (calls c ++ D) c
       ∧ (D = [CallGetDefault nick]
          ∨ D = [CallGetDefault nick; CallDenick nick]
          ∨ D = [CallGetDefault nick; CallDenick nick; CallNickDatabaseGet nick]).
Proof.
  unfold denick, bind, ret, nick_database_get_default, controller_denick,
    nick_database_get.
  destruct (default_database (nick_database c) !! nick) eqn:Hdefault; cbn.
  { exists [CallGetDefault nick]. split; [done | by left]. }
  destruct (answer_denick P _ nick); cbn.
  { exists [CallGetDefault nick; CallDenick nick].
    split; [|by right; left]. unfold with_call, with_calls. cbn. by rewrite <- ?app_assoc. }
  exists [CallGetDefault nick; CallDenick nick; CallNickDatabaseGet nick].
  split; [|by right; right]. rewrite Hdefault.
  destruct (first_binding _ nick); unfold with_call, with_calls; cbn; by rewrite <- ?app_assoc.
Qed.

Lemma fetch_bedwars_stats_trace P username c :
  ∃ pre D post,
    (fetch_bedwars_stats P username c).2
    = with_calls (calls c ++ CallGetUuid username :: pre ++ D ++ post) c
    ∧ (pre = [] ∨ ∃ uuid, pre = [CallGetPlayerData uuid])
    ∧ (D = []
       ∨ D = [CallGetDefault username]
       ∨ D = [CallGetDefault username; CallDenick username]
       ∨ D = [CallGetDefault username; CallDenick username;
              CallNickDatabaseGet username])
    ∧ (post = [] ∨ ∃ uuid, post = [CallGetPlayerData uuid]).
Proof.
  destruct (get_uuid P username c) as [[uuid|] c1] eqn:Huuid.
  - destruct (get_player_data P uuid c1) as [[pd|] c2] eqn:Hdata.
    + rewrite (fetch_direct _ _ _ _ _ _ _ Huuid Hdata).
      apply get_uuid_inv in Huuid as [_ ->].
      apply get_player_data_inv in Hdata as [_ ->].
      exists [CallGetPlayerData uuid], [], []. split_and!; [|by eauto|by left..].
      unfold with_call, with_calls. cbn. by rewrite <- ?app_assoc.
    + rewrite (fetch_without_stats _ _ _ _ _ _ Huuid Hdata).
      apply get_uuid_inv in Huuid as [_ ->].
      apply get_player_data_inv in Hdata as [_ ->].
      destruct (denick_trace P username
                  (with_call (CallGetPlayerData uuid)
                     (with_call (CallGetUuid username) c))) as (D & HD & Hshape).
      destruct (denick P username _) as [[uuid'|] c3]; cbn [snd] in HD; subst c3.
      * exists [CallGetPlayerData uuid], D, [CallGetPlayerData uuid'].
        split_and!; [|by eauto|by right|by eauto].
        unfold get_player_data, with_call, with_calls. cbn. by rewrite <- ?app_assoc.
      * exists [CallGetPlayerData uuid], D, [].
        split_and!; [|by eauto|by right|by left].
        unfold with_call, with_calls. cbn. by rewrite <- ?app_assoc, ?app_nil_r.
  - rewrite (fetch_without_identity _ _ _ _ Huuid).
    apply get_uuid_inv in Huuid as [_ ->].
    destruct (denick_trace P username (with_call (CallGetUuid username) c))
      as (D & HD & Hshape).
    destruct (denick P username _) as [[uuid'|] c2]; cbn [snd] in HD; subst c2.
    + exists [], D, [CallGetPlayerData uuid'].
      split_and!; [|by left|by right|by eauto].
      unfold get_player_data, with_call, with_calls. cbn. by rewrite <- ?app_assoc.
    + exists [], D, []. split_and!; [|by left|by right|by left].
      unfold with_call, with_calls. cbn. by rewrite <- ?app_assoc, ?app_nil_r.
Qed.

(** The record a resolution returns is one for the queried name. *)
Lemma fetch_bedwars_stats_result P username c :
  match (fetch_bedwars_stats P username c).1 with
  | Known p =>
      kp_nick p = Some username ∨ (kp_nick p = None ∧ kp_username p = username)
  | Nicked nick => nick = username
  | Pending _ => False
  end.
Proof.
  destruct (get_uuid P username c) as [[uuid|] c1] eqn:Huuid.
  - destruct (get_player_data P uuid c1) as [[pd|] c2] eqn:Hdata.
    + rewrite (fetch_direct _ _ _ _ _ _ _ Huuid Hdata). by right.
    + rewrite (fetch_without_stats _ _ _ _ _ _ Huuid Hdata).
      destruct (denick P username c2) as [[uuid'|] c3]; [|done].
      destruct (get_player_data P uuid' c3) as [[pd|] c4]; [by left|done].
  - rewrite (fetch_without_identity _ _ _ _ Huuid).
    destruct (denick P username c1) as [[uuid'|] c2]; [|done].
    destruct (get_player_data P uuid' c2) as [[pd|] c3]; [by left|done].
Qed.

Lemma get_bedwars_stats_filed P username c :
  filed_under_own_name (player_cache c) →
  filed_under_own_name (player_cache (get_bedwars_stats P username c).2).
Proof.
  intros Hfiled.
  unfold get_bedwars_stats, bind at 1, get_cached_player.
  assert (Hmiss : filed_under_own_name (player_cache (fetch_and_cache P username c).2)).
  { rewrite fetch_and_cache_eq.
    pose proof (fetch_bedwars_stats_result P username c) as Hshape.
    destruct (fetch_bedwars_stats_trace P username c) as (pre & D & post & Hc & _).
    destruct (fetch_bedwars_stats P username c) as [player cf].
    cbn [fst snd] in *. subst cf.
    assert (Hinsert : ∀ cache, filed_under_own_name cache →
              filed_under_own_name (<[username := player]> cache)).
    { intros cache Hcache key r.
      destruct (decide (username = key)) as [->|Hne].
      - rewrite lookup_insert_eq. intros [= <-]. by destruct player.
      - rewrite lookup_insert_ne by done. apply Hcache. }
    destruct player as [p| |]; [|by apply Hinsert..].
    destruct (kp_nick p) eqn:Hnick; [|by apply Hinsert].
    apply Hinsert. intros key r. cbn.
    destruct (decide (kp_username p = key)) as [<-|Hne].
    + rewrite lookup_insert_eq. intros [= <-]. by right.
    + rewrite lookup_insert_ne by done. apply Hfiled. }
  destruct (player_cache c !! username) as [r|]; [|done].
  by destruct (is_pending r).
Qed.

(** X15.  [get_bedwars_stats] keeps the cache filed by name: if every
    resolved record sits under the nick it carries (or, carrying none,
    under its username), the same is true after the call, whether it was a
    hit or a miss and whatever the providers answered. *)
Theorem get_bedwars_stats_files_under_own_name P username c :
  filed_under_own_name (player_cache c) →
  filed_under_own_name (player_cache (get_bedwars_stats P username c).2).
Proof. apply get_bedwars_stats_filed. Qed.

(** X16.  Resolving a name twice: whatever the first [get_bedwars_stats]
    did, a second call for the same name returns the same record and makes
    no lookup at all. *)
Theorem get_bedwars_stats_twice P username c :
  let (player, c1) := get_bedwars_stats P username c in
  get_bedwars_stats P username c1 = (player, c1).
Proof.
  destruct (get_bedwars_stats P username c) as [player c1] eqn:Hfirst.
  assert (player_cache c1 !! username = Some player ∧ is_pending player = false)
    as [Hcached Hready].
  { revert Hfirst. unfold get_bedwars_stats, bind at 1, get_cached_player.
    assert (Hmiss : fetch_and_cache P username c = (player, c1) →
              player_cache c1 !! username = Some player ∧ is_pending player = false).
    { rewrite fetch_and_cache_eq.
      pose proof (fetch_bedwars_stats_not_pending P username c) as Hnp.
      destruct (fetch_bedwars_stats P username c) as [r cf].
      intros [= -> <-]. cbn. by rewrite lookup_insert_eq. }
    destruct (player_cache c !! username) as [r|] eqn:Hr; [|done].
    destruct (is_pending r) eqn:Hp; [done|]. by intros [= <- <-]. }
  unfold get_bedwars_stats, bind, get_cached_player.
  by rewrite Hcached, Hready.
Qed.

(** X17.  The cost of one [get_bedwars_stats]: at most one identity lookup,
    at most one run of [denick] (so at most one question to the denick
    API), at most two stats fetches, never the winstreak estimator; six
    lookups at most. *)
Theorem get_bedwars_stats_lookups_bounded P username c :
  let tr := new_calls c (get_bedwars_stats P username c).2 in
  (count_calls is_identity_lookup tr ≤ 1)%nat
  ∧ (count_calls is_denick_attempt tr ≤ 1)%nat
  ∧ (count_calls is_api_denick tr ≤ 1)%nat
  ∧ (count_calls is_stats_fetch tr ≤ 2)%nat
  ∧ count_calls is_enrichment tr = 0
  ∧ (length tr ≤ 6)%nat.
Proof.
  intros tr. subst tr.
  assert (Hmiss : ∃ pre D post,
    new_calls c (fetch_and_cache P username c).2
    = CallGetUuid username :: pre ++ D ++ post
    ∧ (pre = [] ∨ ∃ uuid, pre = [CallGetPlayerData uuid])
    ∧ (D = []
       ∨ D = [CallGetDefault username]
       ∨ D = [CallGetDefault username; CallDenick username]
       ∨ D = [CallGetDefault username; CallDenick username;
              CallNickDatabaseGet username])
    ∧ (post = [] ∨ ∃ uuid, post = [CallGetPlayerData uuid])).
  { destruct (fetch_bedwars_stats_trace P username c)
      as (pre & D & post & Hc & Hshape).
    exists pre, D, post. split; [|done]. apply new_calls_app.
    rewrite fetch_and_cache_eq.
    destruct (fetch_bedwars_stats P username c) as [[p| |] cf];
      cbn [snd] in *; subst cf; [|done..].
    by destruct (kp_nick p). }
  assert (Hbound : ∀ tr,
    (∃ pre D post,
       tr = CallGetUuid username :: pre ++ D ++ post
       ∧ (pre = [] ∨ ∃ uuid, pre = [CallGetPlayerData uuid])
       ∧ (D = []
          ∨ D = [CallGetDefault username]
          ∨ D = [CallGetDefault username; CallDenick username]
          ∨ D = [CallGetDefault username; CallDenick username;
                 CallNickDatabaseGet username])
       ∧ (post = [] ∨ ∃ uuid, post = [CallGetPlayerData uuid])) →
    (count_calls is_identity_lookup tr ≤ 1)%nat
    ∧ (count_calls is_denick_attempt tr ≤ 1)%nat
    ∧ (count_calls is_api_denick tr ≤ 1)%nat
    ∧ (count_calls is_stats_fetch tr ≤ 2)%nat
    ∧ count_calls is_enrichment tr = 0
    ∧ (length tr ≤ 6)%nat).
  { intros tr (pre & D & post & -> & [-> | [? ->]]
                & [-> | [-> | [-> | ->]]] & [-> | [? ->]]);
      vm_compute; repeat split; lia. }
  destruct (player_cache c !! username) as [r|] eqn:Hr;
    [destruct (is_pending r) eqn:Hp|].
  - rewrite get_bedwars_stats_miss by (intros r' Hr'; congruence).
    by apply Hbound.
  - replace (get_bedwars_stats P username c) with (r, c)
      by (unfold get_bedwars_stats, bind, get_cached_player; by rewrite Hr, Hp).
    unfold new_calls. cbn [snd]. rewrite drop_all. vm_compute. repeat split; lia.
  - rewrite get_bedwars_stats_miss by (intros r' Hr'; congruence).
    by apply Hbound.
Qed.

(** X18.  [get_bedwars_stats] reads the tables and writes the cache: the
    settings, the settings written out, the nick database, the API key and
    the redraw event are as before, and so is every cache entry but the one
    of the queried name and, for a Known result, the one of its username. *)
Theorem get_bedwars_stats_frame P username c :
  let (player, c') := get_bedwars_stats P username c in
  settings c' = settings c
  ∧ stored_settings c' = stored_settings c
  ∧ nick_database c' = nick_database c
  ∧ api_key c' = api_key c
  ∧ redraw_event c' = redraw_event c
  ∧ ∀ key, key ≠ username →
           (∀ p, player = Known p → key ≠ kp_username p) →
           player_cache c' !! key = player_cache c !! key.
Proof.
  unfold get_bedwars_stats, bind at 1, get_cached_player.
  assert (Hmiss :
    let (player, c') := fetch_and_cache P username c in
    settings c' = settings c
    ∧ stored_settings c' = stored_settings c
    ∧ nick_database c' = nick_database c
    ∧ api_key c' = api_key c
    ∧ redraw_event c' = redraw_event c
    ∧ ∀ key, key ≠ username →
             (∀ p, player = Known p → key ≠ kp_username p) →
             player_cache c' !! key = player_cache c !! key).
  { rewrite fetch_and_cache_eq.
    destruct (fetch_bedwars_stats_trace P username c) as (pre & D & post & Hc & _).
    destruct (fetch_bedwars_stats P username c) as [player cf].
    cbn [snd] in Hc. subst cf.
    destruct player as [p| |]; [destruct (kp_nick p)|..]; cbn;
      (split_and!; [done..|]); intros key Hkey Hname;
      rewrite ?lookup_insert_ne; first [done | by apply not_eq_sym, Hname]. }
  destruct (player_cache c !! username) as [r|]; [|done].
  by destruct (is_pending r).
Qed.

(** X19.  A player both providers know is resolved directly: on a miss,
    with a uuid from the identity provider and a record from the stats
    provider, [get_bedwars_stats] makes exactly these two lookups, consults
    no nickname table and no denick API, returns a Known record under the
    queried name with no nick, and caches it under that name only. *)
Theorem known_player_resolved_directly P username c uuid pd :
  cache_miss c username →
  answer_get_uuid P (calls c) username = Some uuid →
  answer_get_player_data P (calls c ++ [CallGetUuid username]) uuid = Some pd →
  let player := Known (create_known_player pd username uuid None) in
  get_bedwars_stats P username c
  = (player,
     with_player_cache (insert username player)
       (with_calls (calls c ++ [CallGetUuid username; CallGetPlayerData uuid]) c)).
Proof.
  intros Hmiss Huuid Hdata player.
  rewrite (get_bedwars_stats_miss _ _ _ Hmiss), fetch_and_cache_eq.
  rewrite (fetch_direct P username c uuid (with_call (CallGetUuid username) c) pd
             (with_call (CallGetPlayerData uuid) (with_call (CallGetUuid username) c)));
    [| unfold get_uuid; by rewrite Huuid | unfold get_player_data; cbn; by rewrite Hdata].
  cbn. unfold with_call, with_calls, with_player_cache. cbn.
  by rewrite <- app_assoc.
Qed.

(** Operations that only remove cache entries, or rewrite the winstreak of
    a Known record, keep the cache filed by name. *)
Lemma filed_under_own_name_subset (cache cache' : gmap string Player) :
  (∀ key r, cache' !! key = Some r → cache !! key = Some r) →
  filed_under_own_name cache → filed_under_own_name cache'.
Proof. intros Hsub Hfiled key r Hr. by apply Hfiled, Hsub. Qed.

(** X20.  The worker and the three mutations keep the cache filed by name:
    after [get_stats_and_winstreak], [set_nickname], [update_settings] or
    [set_hypixel_api_key] every resolved record still sits under the nick
    it carries or, carrying none, under its username. *)
Theorem behaviour_keeps_cache_filed P c :
  filed_under_own_name (player_cache c) →
  (∀ username queue,
     filed_under_own_name (player_cache (get_stats_and_winstreak P username queue c).2))
  ∧ (∀ username nick,
       filed_under_own_name (player_cache (set_nickname P username nick c).2))
  ∧ (∀ new_settings,
       filed_under_own_name (player_cache (update_settings new_settings c).2))
  ∧ (∀ new_key,
       filed_under_own_name (player_cache (set_hypixel_api_key new_key c).2)).
Proof.
  intros Hfiled. split_and!.
  - intros username queue. unfold get_stats_and_winstreak, bind at 1.
    pose proof (get_bedwars_stats_filed P username c Hfiled) as Hresolved.
    destruct (get_bedwars_stats P username c) as [player c1]. cbn [snd] in Hresolved.
    destruct player as [p| |]; [|done..].
    destruct (is_missing_winstreaks p); [|done].
    unfold bind at 1, get_estimated_winstreaks.
    destruct (answer_get_estimated_winstreaks P (calls c1) (kp_uuid p))
      as [[estimate|] accurate]; [|done].
    unfold bind.
    pose proof (λ k, for_each_update_lookup (update_winstreaks estimate accurate)
      (aliases p) (with_call (CallGetEstimatedWinstreaks (kp_uuid p)) c1) k
      (update_winstreaks_idempotent estimate accurate)) as Hcache.
    destruct (for_each _ _ _) as [[] c3]. cbn [snd] in *.
    intros key r. rewrite Hcache. cbn.
    case_decide; [|by apply Hresolved].
    destruct (player_cache c1 !! key) as [r0|] eqn:Hr0; [|done].
    intros [= <-]. specialize (Hresolved key r0 Hr0). by destruct r0.
  - intros username nick.
    apply (filed_under_own_name_subset (player_cache c)); [|done].
    unfold set_nickname, bind, get_uuid.
    destruct username as [username|]; cbn.
    + destruct (answer_get_uuid P (calls c) username) as [uuid|]; cbn.
      * destruct (find_nick_of_uuid _ uuid) as [[old_nick v]|]; cbn;
          intros key r; rewrite !lookup_delete; by repeat case_decide.
      * intros key r; rewrite !lookup_delete; by repeat case_decide.
    + intros key r; rewrite !lookup_delete; by repeat case_decide.
  - intros new_settings.
    apply (filed_under_own_name_subset (player_cache c)); [|done].
    intros key r. rewrite update_settings_player_cache.
    destruct (api_keys_changed _ _); [by rewrite lookup_empty|].
    unfold for_each_in. rewrite !for_each_uncache_lookup. by repeat case_decide.
  - intros new_key. intros key r. cbn. by rewrite lookup_empty.
Qed.

(** ** The sort key and the sidelay resolver *)

(** X21.  Party members come first: whatever their stats, and nicked or
    not, the sort key of a player in the party is below the key of a player
    outside it, and never the other way round. *)
Theorem party_members_sort_first stats_lt party a b :
  Sidelay.stats_username a ∈ party →
  Sidelay.stats_username b ∉ party →
  Sidelay.key_lt stats_lt (Sidelay.rate_stats party a) (Sidelay.rate_stats party b)
  = true
  ∧ Sidelay.key_lt stats_lt (Sidelay.rate_stats party b) (Sidelay.rate_stats party a)
    = false.
Proof.
  intros Ha Hb. unfold Sidelay.rate_stats.
  rewrite (bool_decide_eq_false_2 (Sidelay.stats_username a ∉ party)) by tauto.
  rewrite (bool_decide_eq_true_2 (Sidelay.stats_username b ∉ party)) by done.
  by destruct a, b.
Qed.

(** X22.  Within one side of the party, two nicked players tie (neither key
    is below the other), and two known players are ordered by the order of
    their stats records. *)
Theorem same_side_order stats_lt party a b :
  (Sidelay.stats_username a ∈ party ↔ Sidelay.stats_username b ∈ party) →
  match a, b with
  | Sidelay.NickedOf _, Sidelay.NickedOf _ =>
      Sidelay.key_lt stats_lt (Sidelay.rate_stats party a) (Sidelay.rate_stats party b)
      = false
  | Sidelay.StatsOf x, Sidelay.StatsOf y =>
      Sidelay.key_lt stats_lt (Sidelay.rate_stats party a) (Sidelay.rate_stats party b)
      = stats_lt x y
  | _, _ => True
  end.
Proof.
  intros Hside. unfold Sidelay.rate_stats.
  rewrite (bool_decide_ext _ _ (not_iff_compat Hside)).
  destruct a, b; try done; cbn; by destruct (bool_decide _).
Qed.

(** ** [get_player_data] *)

(** X23.  [get_player_data] returns a player record exactly when the
    request got through, the status is no client or server error, the body
    is a JSON object whose "success" member is present and true-ish, and its
    "player" member is present and true-ish; the record returned is that
    member, so never an empty or null one. *)
Theorem get_player_data_returns_iff reply playerdata :
  Hypixel.get_player_data reply = inl playerdata
  ↔ ∃ status_code response_json success,
      reply = Hypixel.Response status_code (Some (Hypixel.JObject response_json))
      ∧ Hypixel.ok status_code = true
      ∧ PyDict.get response_json "success" = Some success
      ∧ Hypixel.truthy success = true
      ∧ PyDict.get response_json "player" = Some playerdata
      ∧ Hypixel.truthy playerdata = true.
Proof.
  unfold Hypixel.get_player_data. split.
  - destruct reply as [|status_code [json|]]; [done| |by destruct (Hypixel.ok _)].
    destruct (Hypixel.ok status_code) eqn:Hok; [|done]. cbn.
    destruct json as [| | | | | |response_json]; try done.
    destruct (PyDict.get response_json "success") as [success|] eqn:Hsuccess;
      cbn; [|done].
    destruct (Hypixel.truthy success) eqn:Htrue; cbn; [|done].
    destruct (PyDict.get response_json "player") as [pd|] eqn:Hplayer; [|done].
    destruct (Hypixel.truthy pd) eqn:Hpd; cbn; [|done].
    intros [= <-]. by exists status_code, response_json, success.
  - intros (status_code & response_json & success & -> & -> & -> & Htrue & -> & Hpd).
    cbn. by rewrite Htrue, Hpd.
Qed.

(** X24.  Not every failure of [get_player_data] is a [HypixelAPIError]:
    with an acceptable status, a JSON body that is not an object raises
    [AttributeError], and an object with a true-ish "success" and no
    "player" member raises [KeyError]; these are the only two ways. *)
Theorem get_player_data_other_exceptions reply :
  (Hypixel.get_player_data reply = inr Hypixel.AttributeError
   ↔ ∃ status_code json,
       reply = Hypixel.Response status_code (Some json)
       ∧ Hypixel.ok status_code = true
       ∧ ∀ response_json, json ≠ Hypixel.JObject response_json)
  ∧ (Hypixel.get_player_data reply = inr Hypixel.KeyError
     ↔ ∃ status_code response_json success,
         reply = Hypixel.Response status_code (Some (Hypixel.JObject response_json))
         ∧ Hypixel.ok status_code = true
         ∧ PyDict.get response_json "success" = Some success
         ∧ Hypixel.truthy success = true
         ∧ PyDict.get response_json "player" = None).
Proof.
  unfold Hypixel.get_player_data. split; split.
  - destruct reply as [|status_code [json|]]; [done| |by destruct (Hypixel.ok _)].
    destruct (Hypixel.ok status_code) eqn:Hok; [|done]. cbn.
    destruct json as [| | | | | |response_json];
      try (intros _; eexists _, _; by split_and!).
    destruct (PyDict.get response_json "success") as [success|]; cbn; [|done].
    destruct (Hypixel.truthy success); cbn; [|done].
    destruct (PyDict.get response_json "player") as [pd|]; [|done].
    by destruct (Hypixel.truthy pd).
  - intros (status_code & json & -> & -> & Hshape). cbn.
    destruct json; try done. by destruct (Hshape fields).
  - destruct reply as [|status_code [json|]]; [done| |by destruct (Hypixel.ok _)].
    destruct (Hypixel.ok status_code) eqn:Hok; [|done]. cbn.
    destruct json as [| | | | | |response_json]; try done.
    destruct (PyDict.get response_json "success") as [success|] eqn:Hsuccess;
      cbn; [|done].
    destruct (Hypixel.truthy success) eqn:Htrue; cbn; [|done].
    destruct (PyDict.get response_json "player") as [pd|] eqn:Hplayer.
    + by destruct (Hypixel.truthy pd).
    + intros _. by exists status_code, response_json, success.
  - intros (status_code & response_json & success & -> & -> & -> & Htrue & ->).
    cbn. by rewrite Htrue.
Qed.

Section sidelay_again.
Variable NICK_DATABASE : gmap string string.
Variable answer_get_uuid : list Sidelay.Lookup → string → option string.
Variable answer_get_player_data :
  list Sidelay.Lookup → string → string → option PlayerData.
Variable bedwars_level_from_exp : Z → Sidelay.PyValue.
Variable div : Z → Z → Sidelay.PyValue.



End sidelay_again.

(** ** Instances *)

Lemma nicked_controller_in_step : tables_in_step Examples.nicked_controller.
Proof.
  intros nick. destruct (decide (nick = "AmazingNick")) as [->|Hne]; [done|].
  cbn. rewrite lookup_singleton_ne by done. by rewrite decide_False.
Qed.

Lemma amazing_nick_one_per_uuid :
  NoDup (PyDict.keys Examples.amazing_nick) ∧ one_nick_per_uuid Examples.amazing_nick.
Proof.
  split; [apply NoDup_singleton|]. intros k1 k2 v1 v2. cbn.
  repeat case_decide; congruence.
Qed.

Lemma nicked_controller_filed :
  filed_under_own_name (player_cache Examples.nicked_controller).
Proof.
  intros key r. unfold Examples.nicked_controller. cbn [player_cache].
  rewrite !lookup_insert, lookup_singleton.
  repeat case_decide; subst; intros [= <-]; cbn; auto.
Qed.

Lemma process_loglines_without_redraw_witness :
  process_loglines (list Event) Cases.parse_swap Cases.record_event id
    Cases.two_lines []
  = fast_forward_state (list Event) Cases.parse_swap Cases.record_event
      Cases.two_lines [].
Proof.
  apply (process_loglines_without_redraw Cases.parse_swap Cases.record_event id
           Cases.two_lines []).
  reflexivity.
Defined.

Lemma set_nickname_unbinds_witness :
  let c' := (set_nickname Examples.no_providers (Some "Ghost") "AmazingNick"
               Examples.nicked_controller).2 in
  PyDict.get (known_nicks (settings c')) "AmazingNick" = None
  ∧ default_database (nick_database c') !! "AmazingNick" = None
  ∧ player_cache c' !! "AmazingNick" = None
  ∧ player_cache c' !! "Player1" = Some (Known (replace_nick Examples.player1 None)).
Proof.
  intros c'. subst c'.
  destruct (set_nickname_unbinds Examples.no_providers (Some "Ghost") "AmazingNick"
              Examples.nicked_controller) as (Hknown & Hdefault & Hcache & _ & Hother).
  - reflexivity.
  - split_and!; [exact Hknown | exact Hdefault | exact Hcache |].
    destruct (Hother "Player1") as (_ & _ & ->); [discriminate | reflexivity].
Defined.

Lemma set_nickname_binds_fresh_witness :
  let c' := (set_nickname Examples.mojang_knows_player1 (Some "Player1")
               "AmazingNick" Examples.empty_controller).2 in
  PyDict.get (known_nicks (settings c')) "AmazingNick"
  = Some (mkNickValue "123987" "Player1")
  ∧ default_database (nick_database c') !! "AmazingNick" = Some "123987".
Proof.
  intros c'. subst c'.
  destruct (set_nickname_binds_fresh Examples.mojang_knows_player1 "Player1"
              "AmazingNick" Examples.empty_controller "123987" eq_refl eq_refl)
    as (Hknown & Hdefault & _).
  by split.
Defined.

Lemma set_nickname_keeps_tables_in_step_witness :
  tables_in_step
    (set_nickname Examples.mojang_knows_player1 (Some "Player1") "SuperbNick"
       Examples.nicked_controller).2.
Proof.
  apply set_nickname_keeps_tables_in_step, nicked_controller_in_step.
Defined.

Lemma set_nickname_keeps_one_nick_per_uuid_witness :
  let d' := known_nicks (settings
              (set_nickname Examples.mojang_knows_player1 (Some "Player1")
                 "SuperbNick" Examples.nicked_controller).2) in
  NoDup (PyDict.keys d') ∧ one_nick_per_uuid d'.
Proof.
  apply (set_nickname_keeps_one_nick_per_uuid Examples.mojang_knows_player1
           (Some "Player1") "SuperbNick" Examples.nicked_controller);
    apply amazing_nick_one_per_uuid.
Defined.

Lemma set_nickname_then_resolve_witness :
  let c1 := (set_nickname Cases.knows_player1 (Some "Player1") "SuperbNick"
               Examples.nicked_controller).2 in
  let (player, c2) := get_bedwars_stats Cases.knows_player1 "SuperbNick" c1 in
  new_calls c1 c2
  = [CallGetUuid "SuperbNick"; CallGetDefault "SuperbNick";
     CallGetPlayerData "123987"]
  ∧ player = Known (create_known_player Examples.player1_data "Player1" "123987"
                      (Some "SuperbNick")).
Proof.
  exact (set_nickname_then_resolve Cases.knows_player1 "Player1" "SuperbNick"
           Examples.nicked_controller "123987" eq_refl eq_refl).
Defined.

Lemma update_settings_uncaches_changed_entries_witness :
  player_cache (update_settings Cases.two_nicks Examples.nicked_controller).2
    !! "Bystander" = Some (Nicked "Bystander").
Proof.
  rewrite (update_settings_uncaches_changed_entries Cases.two_nicks
             Examples.nicked_controller "Bystander" eq_refl).
  reflexivity.
Defined.

Lemma update_settings_clears_on_credentials_witness :
  player_cache (update_settings Cases.antisniper_on Examples.nicked_controller).2
    !! "Player1" = None.
Proof.
  apply (update_settings_clears_on_credentials Cases.antisniper_on
           Examples.nicked_controller "Player1").
  right. left. split; [discriminate | reflexivity].
Defined.

Lemma update_settings_keeps_tables_in_step_witness :
  tables_in_step (update_settings Cases.two_nicks Examples.nicked_controller).2.
Proof.
  apply update_settings_keeps_tables_in_step, nicked_controller_in_step.
Defined.

Lemma get_bedwars_stats_files_under_own_name_witness :
  filed_under_own_name
    (player_cache (get_bedwars_stats Cases.knows_player1 "Newcomer"
                     Examples.nicked_controller).2).
Proof.
  apply get_bedwars_stats_files_under_own_name, nicked_controller_filed.
Defined.

Lemma known_player_resolved_directly_witness :
  let player := Known (create_known_player Examples.player1_data "Player1" "123987"
                         None) in
  get_bedwars_stats Cases.knows_player1 "Player1" Examples.empty_controller
  = (player,
     with_player_cache (insert "Player1" player)
       (with_calls [CallGetUuid "Player1"; CallGetPlayerData "123987"]
          Examples.empty_controller)).
Proof.
  apply (known_player_resolved_directly Cases.knows_player1 "Player1"
           Examples.empty_controller "123987" Examples.player1_data);
    [intros r Hr; by vm_compute in Hr | reflexivity | reflexivity].
Defined.

Lemma behaviour_keeps_cache_filed_witness :
  filed_under_own_name
    (player_cache (update_settings Cases.two_nicks Examples.nicked_controller).2).
Proof.
  destruct (behaviour_keeps_cache_filed Cases.knows_player1
              Examples.nicked_controller nicked_controller_filed)
    as (_ & _ & Hupdate & _).
  apply Hupdate.
Defined.

Lemma party_members_sort_first_witness :
  Sidelay.key_lt (λ _ _, false) (Sidelay.rate_stats Cases.party Cases.teammate)
    (Sidelay.rate_stats Cases.party Cases.enemy) = true
  ∧ Sidelay.key_lt (λ _ _, false) (Sidelay.rate_stats Cases.party Cases.enemy)
      (Sidelay.rate_stats Cases.party Cases.teammate) = false.
Proof.
  apply (party_members_sort_first (λ _ _, false) Cases.party Cases.teammate
           Cases.enemy); vm_compute; [reflexivity | discriminate].
Defined.

Lemma same_side_order_witness :
  Sidelay.key_lt (λ _ _, false) (Sidelay.rate_stats ∅ Cases.teammate)
    (Sidelay.rate_stats ∅ Cases.teammate) = false.
Proof.
  apply (same_side_order (λ _ _, false) ∅ Cases.teammate Cases.teammate).
  reflexivity.
Defined.

Lemma set_nickname_frame_witness :
  let c := Examples.nicked_controller in
  let c' := (set_nickname Examples.mojang_knows_player1 (Some "Player1")
               "SuperbNick" c).2 in
  new_calls c c' = [CallGetUuid "Player1"]
  ∧ player_cache c' !! "Bystander" = player_cache c !! "Bystander".
Proof.
  intros c c'. subst c'.
  destruct (set_nickname_frame Examples.mojang_knows_player1 (Some "Player1")
              "SuperbNick" c) as (Hcalls & _ & Hframe).
  split; [exact Hcalls | apply Hframe; [discriminate | reflexivity]].
Defined.

Lemma get_bedwars_stats_frame_witness :
  let c := Examples.nicked_controller in
  let c' := (get_bedwars_stats Cases.knows_player1 "Newcomer" c).2 in
  nick_database c' = nick_database c
  ∧ player_cache c' !! "Bystander" = player_cache c !! "Bystander".
Proof.
  intros c c'. subst c'.
  pose proof (get_bedwars_stats_frame Cases.knows_player1 "Newcomer" c) as Hframe.
  destruct (get_bedwars_stats Cases.knows_player1 "Newcomer" c) as [player c']
    eqn:Hrun.
  destruct Hframe as (_ & _ & Hdb & _ & _ & Hcache).
  split; [exact Hdb | apply Hcache; [discriminate|]].
  intros p ->. vm_compute in Hrun. discriminate Hrun.
Defined.
